(** * SIWE notepad: the client state machine of [src/providers.ts]

    A shallow embedding of the browser-side code of the notepad (wallet
    connection, the Sign-In With Ethereum handshake, the save path and the
    bookkeeping of the DOM affordances) and the properties of it that the
    specification states.

    The program is event driven: every handler runs to completion and every
    [await] or [.then] suspends a flow until the environment (network,
    wallet, browser) settles the promise.  The embedding keeps the handlers
    as functions in a state-and-exception monad over the application state,
    stores the suspended flows as defunctionalised continuations in a table
    of pending promises, and lets the environment drive the program through
    a [step] function on events. *)

From stdpp Require Import base option list strings functions gmap.
From Stdlib Require Import ZArith Lia.

(** ** JavaScript strings, JSON.stringify and Buffer.byteLength *)

Module JS.

Local Open Scope Z_scope.

(** A JavaScript string is a sequence of UTF-16 code units. *)
Definition jsstring := list Z.

Definition unit_of_ascii (a : Ascii.ascii) : Z := Z.of_N (Ascii.N_of_ascii a).

Fixpoint units (s : string) : jsstring :=
  match s with
  | EmptyString => []
  | String a r => unit_of_ascii a :: units r
  end.

Definition is_high_surrogate (c : Z) : bool := (0xD800 <=? c) && (c <=? 0xDBFF).
Definition is_low_surrogate (c : Z) : bool := (0xDC00 <=? c) && (c <=? 0xDFFF).

(** Lower-case hexadecimal digit of a value in [0, 16). *)
Definition hex_digit (d : Z) : Z :=
  if d <? 10 then 48 + d else 87 + d.

(** [UnicodeEscape]: a backslash, [u] and four lower-case hex digits. *)
Definition unicode_escape (c : Z) : jsstring :=
  [92; 117;
   hex_digit (Z.land (Z.shiftr c 12) 15);
   hex_digit (Z.land (Z.shiftr c 8) 15);
   hex_digit (Z.land (Z.shiftr c 4) 15);
   hex_digit (Z.land c 15)].

(** The escaping of one code point below U+D800 or above U+DFFF in
    [QuoteJSONString]: the short escapes of table 75, the unicode escape
    for the other control characters, the character itself otherwise. *)
Definition escape_unit (c : Z) : jsstring :=
  if c =? 8 then [92; 98]
  else if c =? 9 then [92; 116]
  else if c =? 10 then [92; 110]
  else if c =? 12 then [92; 102]
  else if c =? 13 then [92; 114]
  else if c =? 34 then [92; 34]
  else if c =? 92 then [92; 92]
  else if c <? 32 then unicode_escape c
  else [c].

(** The body of [QuoteJSONString] (well-formed JSON.stringify): a surrogate
    pair is one code point and is copied, a lone surrogate is escaped. *)
Fixpoint quote_units (l : jsstring) : jsstring :=
  match l with
  | [] => []
  | c :: r =>
      if is_high_surrogate c then
        match r with
        | d :: r' =>
            if is_low_surrogate d then c :: d :: quote_units r'
            else unicode_escape c ++ quote_units r
        | [] => unicode_escape c
        end
      else if is_low_surrogate c then unicode_escape c ++ quote_units r
      else escape_unit c ++ quote_units r
  end.

Definition quote (l : jsstring) : jsstring := [34] ++ quote_units l ++ [34].

(** [JSON.stringify({ text })] for a string [text]: the code units of
    the key with its quotes and colon between braces, then the quoted
    value. *)
Definition stringify_text (text : jsstring) : jsstring :=
  [123; 34; 116; 101; 120; 116; 34; 58] ++ quote text ++ [125].

(** [Buffer.byteLength(s)] with the default encoding: the length of the
    UTF-8 encoding of [s]; a surrogate pair takes four bytes, a lone
    surrogate is replaced by U+FFFD, three bytes. *)
Fixpoint byteLength (l : jsstring) : Z :=
  match l with
  | [] => 0
  | c :: r =>
      if c <? 0x80 then 1 + byteLength r
      else if c <? 0x800 then 2 + byteLength r
      else if is_high_surrogate c then
        match r with
        | d :: r' =>
            if is_low_surrogate d then 4 + byteLength r'
            else 3 + byteLength r
        | [] => 3
        end
      else 3 + byteLength r
  end.

(** The value a textarea gives back: what was stored, with every CR LF
    pair and every other CR replaced by LF. *)
Fixpoint normalize_newlines (l : jsstring) : jsstring :=
  match l with
  | [] => []
  | c :: r =>
      if c =? 13 then
        10 :: match r with
              | d :: r' => if d =? 10 then normalize_newlines r' else normalize_newlines r
              | [] => []
              end
      else c :: normalize_newlines r
  end.

(** Truthiness of a string value: only the empty string is falsy. *)
Definition truthy (l : jsstring) : bool :=
  match l with [] => false | _ => true end.

(** [a ?? b]: the right operand only when the left one is null or
    undefined. *)
Definition nullish {A} (a : option A) (b : A) : A :=
  match a with Some x => x | None => b end.

(** The values the injected-provider test works on. *)
Inductive value :=
| Undefined
| Null
| Str (s : string)
| Object (handle : nat).

Definition typeof (v : value) : string :=
  match v with
  | Undefined => "undefined"
  | Null => "object"
  | Str _ => "string"
  | Object _ => "object"
  end.

(** Strict equality [===] on these values: no conversion, values of
    different types are never equal. *)
Definition strict_eq (a b : value) : bool :=
  match a, b with
  | Undefined, Undefined => true
  | Null, Null => true
  | Str s, Str t => bool_decide (s = t)
  | Object h, Object k => bool_decide (h = k)
  | _, _ => false
  end.

Definition to_boolean (v : value) : bool :=
  match v with
  | Undefined | Null => false
  | Str s => bool_decide (s ≠ EmptyString)
  | Object _ => true
  end.

(** The number of UTF-8 bytes of a code unit that does not start a
    surrogate pair. *)
Definition width (c : Z) : Z :=
  if c <? 0x80 then 1 else if c <? 0x800 then 2 else 3.

(** A printable ASCII character other than the quote and the backslash:
    JSON.stringify copies it. *)
Definition plain (c : Z) : Prop := 32 <= c < 128 ∧ c ≠ 34 ∧ c ≠ 92.

End JS.

(** ** The document *)

(** [const enum Providers]. *)
Inductive Providers := METAMASK | WALLET_CONNECT.

Definition Providers_value (c : Providers) : string :=
  match c with METAMASK => "metamask" | WALLET_CONNECT => "walletconnect" end.

(** The functions of the module that are registered as callbacks. *)
Inductive Listener :=
| L_maximize
| L_restore
| L_signOut
| L_connect (connector : Providers)
| L_save
| L_enableSave.

Global Instance Providers_eq_dec : EqDecision Providers.
Proof. solve_decision. Defined.

Global Instance Listener_eq_dec : EqDecision Listener.
Proof. solve_decision. Defined.

(** What the code reads and writes of an element.  [classList] is a
    DOMTokenList and [attributes] a NamedNodeMap: ordered, without
    duplicates.  [listeners] is the event listener list of the element. *)
Record Element := mkElement {
  classList : list string;
  attributes : list (string * string);
  listeners : list (string * Listener);
  innerText : string;
  value : JS.jsstring;
  ariaLabel : option string;
  style : list (string * string)
}.

(** [classList.add(token)] and [classList.remove(token)]. *)
Definition token_add (t : string) (l : list string) : list string :=
  if bool_decide (t ∈ l) then l else l ++ [t].

Definition token_remove (t : string) (l : list string) : list string :=
  filter (λ x, x ≠ t) l.

(** [setAttribute], [removeAttribute], also used for [style] properties:
    an existing entry keeps its place and takes the new value. *)
Fixpoint attr_set (n v : string) (l : list (string * string)) : list (string * string) :=
  match l with
  | [] => [(n, v)]
  | (m, w) :: r => if bool_decide (m = n) then (n, v) :: r else (m, w) :: attr_set n v r
  end.

Definition attr_remove (n : string) (l : list (string * string)) : list (string * string) :=
  filter (λ p, p.1 ≠ n) l.

Fixpoint attr_get (n : string) (l : list (string * string)) : option string :=
  match l with
  | [] => None
  | (m, w) :: r => if bool_decide (m = n) then Some w else attr_get n r
  end.

(** [addEventListener(type, callback)] does nothing when the same callback
    is already registered for the type; [removeEventListener] removes it. *)
Definition listener_add (type : string) (f : Listener)
    (l : list (string * Listener)) : list (string * Listener) :=
  if bool_decide ((type, f) ∈ l) then l else l ++ [(type, f)].

Definition listener_remove (type : string) (f : Listener)
    (l : list (string * Listener)) : list (string * Listener) :=
  filter (λ p, p ≠ (type, f)) l.

Definition set_classList (f : list string → list string) (e : Element) : Element :=
  mkElement (f (classList e)) (attributes e) (listeners e) (innerText e)
            (value e) (ariaLabel e) (style e).

Definition set_attributes (f : list (string * string) → list (string * string))
    (e : Element) : Element :=
  mkElement (classList e) (f (attributes e)) (listeners e) (innerText e)
            (value e) (ariaLabel e) (style e).

Definition set_listeners (f : list (string * Listener) → list (string * Listener))
    (e : Element) : Element :=
  mkElement (classList e) (attributes e) (f (listeners e)) (innerText e)
            (value e) (ariaLabel e) (style e).

Definition set_innerText (t : string) (e : Element) : Element :=
  mkElement (classList e) (attributes e) (listeners e) t
            (value e) (ariaLabel e) (style e).

Definition set_value (v : JS.jsstring) (e : Element) : Element :=
  mkElement (classList e) (attributes e) (listeners e) (innerText e)
            v (ariaLabel e) (style e).

Definition set_ariaLabel (a : string) (e : Element) : Element :=
  mkElement (classList e) (attributes e) (listeners e) (innerText e)
            (value e) (Some a) (style e).

Definition set_style (n v : string) (e : Element) : Element :=
  mkElement (classList e) (attributes e) (listeners e) (innerText e)
            (value e) (ariaLabel e) (attr_set n v (style e)).

(** The module-level element variables, assigned on DOMContentLoaded. *)
Inductive Handle :=
| metamaskButton
| walletConnectButton
| toggleSize
| closeButton
| disconnectButton
| saveButton
| notepad
| unsaved.

Global Instance Handle_eq_dec : EqDecision Handle.
Proof. solve_decision. Defined.

Definition all_handles : list Handle :=
  [metamaskButton; walletConnectButton; toggleSize; closeButton;
   disconnectButton; saveButton; notepad; unsaved].

(** ** Wallets, requests and promises *)

(** A wallet provider handle: the provider of the signer that [watchSigner]
    reports, or [new ethers.providers.Web3Provider(metamask)]. *)
Inductive Provider :=
| SignerProvider (handle : nat)
| Web3Provider (ethereum : JS.value).

(** The argument of the [watchSigner] callback when it is not null. *)
Record Signer := mkSigner { signer_provider : option Provider }.

(** A message of the siwe library by the seven fields that [signIn] gives
    to [new SiweMessage({...})].  The class belongs to the library, which is
    not part of this repository: what its constructor makes of the fields,
    the message object or an exception, is a parameter of the page
    ([new_SiweMessage] below). *)
Record SiweMessage := mkSiweMessage {
  domain : string;
  address : string;
  chainId : Z;
  uri : string;
  version : string;
  statement : string;
  nonce : string
}.

(** [message.prepareMessage()] belongs to the siwe library, not to this
    repository: the text it returns is kept symbolic. *)
Inductive MessageText := prepareMessage (message : SiweMessage).

Inductive WalletCall :=
| eth_requestAccounts (ethereum : JS.value)
| listAccounts (p : Provider)
| lookupAddress (p : Provider) (address : string)
| getNetwork (p : Provider)
| signMessage (p : Provider) (text : MessageText).

(** The body of a request: [JSON.stringify({ text })] as the string it is,
    [JSON.stringify({ message, ens, signature })] by its three values. *)
Inductive Body :=
| SaveBody (json : JS.jsstring)
| SignInBody (message : SiweMessage) (ens signature : string).

Record Request := mkRequest {
  url : string;
  method : string;
  credentials : string;
  headers : list (string * string);
  body : option Body
}.

Inductive Error :=
| TypeError (variable : Handle)
| AddressNotFound
| SiweError (fields : SiweMessage)
| Rejection (reason : string).

Inductive UIEvent := KeyboardEvent | MouseEvent | InputEvent.

(** Everything the program does to the outside, in order. *)
Inductive Effect :=
| Fetch (promise : nat) (r : Request)
| Wallet (promise : nat) (c : WalletCall)
| OpenModal
| Alert (msg : string)
| ConsoleLog (signer : option Signer)
| ConsoleError (reason : string)
| PreventDefault (e : UIEvent)
| Uncaught (e : Error).

(** The JSON object of a 200 reply of /api/me and /api/sign_in, seen
    through the three properties the code destructures.  [r_ens] is [None]
    when the property is null or absent. *)
Record Session := mkSession {
  r_text : JS.jsstring;
  r_address : string;
  r_ens : option string
}.

(** A response: [res.status], [res.text()] and [res.json()], the latter
    [None] when the body is not JSON and the promise rejects.  The promise
    of [res.text()] or [res.json()] is settled together with the one of
    [fetch]: the code does nothing between the two. *)
Record Response := mkResponse {
  status : Z;
  body_text : string;
  body_json : option Session
}.

(** What a promise is settled with. *)
Inductive Reply :=
| Rejected (reason : string)
| Accounts (l : list string)
| EnsName (name : option string)
| Network (chain : Z)
| Signature (sig : string)
| Http (res : Response).

(** The suspended flows: the point of the source where the flow waits,
    with the variables it still needs. *)
Inductive Cont :=
| connect_requested (ethereum : JS.value)
| signIn_accounts (p : Provider)
| signIn_lookup (p : Provider) (address : string)
| signIn_nonce (p : Provider) (address ens : string)
| signIn_network (p : Provider) (address ens nonce host : string)
| signIn_signature (message : SiweMessage) (ens : string)
| signIn_verify
| signOut_then
| save_then
| me_then.

(** ** The application state *)

Record State := mkState {
  (* the page *)
  metamask : JS.value;
  location_host : string;
  location_origin : string;
  (* the siwe library: the message its constructor builds, none when it throws *)
  new_SiweMessage : SiweMessage → option SiweMessage;
  (* the elements *)
  document : Handle → Element;
  title : option Element;
  onbeforeunload : option string;
  (* module-level variables *)
  bound : bool;
  wagmiProvider : option Provider;
  hotkeys : list (string * Listener);
  (* promises and effects *)
  pending : gmap nat Cont;
  next_promise : nat;
  effects : list Effect
}.

Definition set_document (f : (Handle → Element) → Handle → Element) (s : State) : State :=
  mkState (metamask s) (location_host s) (location_origin s) (new_SiweMessage s) (f (document s))
          (title s) (onbeforeunload s) (bound s) (wagmiProvider s) (hotkeys s)
          (pending s) (next_promise s) (effects s).

Definition set_title (f : option Element → option Element) (s : State) : State :=
  mkState (metamask s) (location_host s) (location_origin s) (new_SiweMessage s) (document s)
          (f (title s)) (onbeforeunload s) (bound s) (wagmiProvider s) (hotkeys s)
          (pending s) (next_promise s) (effects s).

Definition set_onbeforeunload (h : option string) (s : State) : State :=
  mkState (metamask s) (location_host s) (location_origin s) (new_SiweMessage s) (document s)
          (title s) h (bound s) (wagmiProvider s) (hotkeys s)
          (pending s) (next_promise s) (effects s).

Definition set_bound (b : bool) (s : State) : State :=
  mkState (metamask s) (location_host s) (location_origin s) (new_SiweMessage s) (document s)
          (title s) (onbeforeunload s) b (wagmiProvider s) (hotkeys s)
          (pending s) (next_promise s) (effects s).

Definition set_wagmiProvider (p : option Provider) (s : State) : State :=
  mkState (metamask s) (location_host s) (location_origin s) (new_SiweMessage s) (document s)
          (title s) (onbeforeunload s) (bound s) p (hotkeys s)
          (pending s) (next_promise s) (effects s).

Definition set_pending (f : gmap nat Cont → gmap nat Cont) (s : State) : State :=
  mkState (metamask s) (location_host s) (location_origin s) (new_SiweMessage s) (document s)
          (title s) (onbeforeunload s) (bound s) (wagmiProvider s) (hotkeys s)
          (f (pending s)) (next_promise s) (effects s).

Definition set_next_promise (n : nat) (s : State) : State :=
  mkState (metamask s) (location_host s) (location_origin s) (new_SiweMessage s) (document s)
          (title s) (onbeforeunload s) (bound s) (wagmiProvider s) (hotkeys s)
          (pending s) n (effects s).

Definition log (e : Effect) (s : State) : State :=
  mkState (metamask s) (location_host s) (location_origin s) (new_SiweMessage s) (document s)
          (title s) (onbeforeunload s) (bound s) (wagmiProvider s) (hotkeys s)
          (pending s) (next_promise s) (effects s ++ [e]).

(** ** The monad of handlers: state and exceptions *)

Inductive Result (A : Type) :=
| Ok (a : A)
| Throw (e : Error).
Arguments Ok {A} a.
Arguments Throw {A} e.

Definition M (A : Type) : Type := State → Result A * State.

Global Instance M_ret : MRet M := λ A a s, (Ok a, s).

Global Instance M_bind : MBind M := λ A B f m s,
  match m s with
  | (Ok a, s') => f a s'
  | (Throw e, s') => (Throw e, s')
  end.

Definition throw {A} (e : Error) : M A := λ s, (Throw e, s).
Definition gets {A} (f : State → A) : M A := λ s, (Ok (f s), s).
Definition modify (f : State → State) : M unit := λ s, (Ok tt, f s).
Definition when (b : bool) (m : M unit) : M unit := if b then m else mret tt.

(** A handler run by the event loop: an exception that escapes (or the
    rejection of the promise of an async function nobody awaits) is
    reported and the state keeps what was done before it. *)
Definition run (m : M unit) (s : State) : State :=
  match m s with
  | (Ok _, s') => s'
  | (Throw e, s') => log (Uncaught e) s'
  end.

(** Reading and updating the element behind a module-level variable: a
    TypeError while the variable is still undefined. *)
Definition element (h : Handle) : M Element := λ s,
  if bound s then (Ok (document s h), s) else (Throw (TypeError h), s).

Definition update (h : Handle) (f : Element → Element) : M unit :=
  _ ← element h; modify (set_document (alter f h)).

(** Starting an asynchronous call: the call is issued, the flow is
    suspended on its promise. *)
Definition suspended (call : nat → Effect) (k : Cont) (s : State) : State :=
  set_next_promise (S (next_promise s))
    (set_pending (<[next_promise s := k]>) (log (call (next_promise s)) s)).

Definition suspend (call : nat → Effect) (k : Cont) : M unit :=
  modify (suspended call k).

Definition fetch (r : Request) (k : Cont) : M unit := suspend (λ id, Fetch id r) k.
Definition wallet (c : WalletCall) (k : Cont) : M unit := suspend (λ id, Wallet id c) k.
Definition effect (e : Effect) : M unit := modify (log e).

(** ** The functions of [providers.ts] *)

Definition updateTitle (text : string) : M unit :=
  modify (set_title (fmap (set_innerText text))).

Definition updateUnsavedChanges (text : string) : M unit :=
  update unsaved (set_innerText text).

(** [notepad.value = text]: the value the textarea then gives back is the
    text with its newlines normalised. *)
Definition updateNotepad (text : JS.jsstring) : M unit :=
  update notepad (set_value (JS.normalize_newlines text)).

Definition unsaved_mark : string := "- (***Unsaved Changes***)".
Definition unload_warning : string := "(***Unsaved Changes***)".

Definition blockSave : M unit :=
  update saveButton (set_listeners (listener_remove "click" L_save));;
  update saveButton (set_attributes (attr_set "disabled" "true"));;
  updateUnsavedChanges EmptyString;;
  modify (set_onbeforeunload None).

Definition enableSave : M unit :=
  update saveButton (set_listeners (listener_add "click" L_save));;
  update saveButton (set_attributes (attr_remove "disabled"));;
  updateUnsavedChanges unsaved_mark;;
  modify (set_onbeforeunload (Some unload_warning)).

(** [typeof metamask === undefined]: a string compared with undefined. *)
Definition metamask_undefined : M bool :=
  mm ← gets metamask; mret (JS.strict_eq (JS.Str (JS.typeof mm)) JS.Undefined).

Definition connectedState (text : JS.jsstring) (address : string) (ens : option string) : M unit :=
  update metamaskButton (set_classList (token_add "hidden"));;
  update walletConnectButton (set_classList (token_add "hidden"));;
  update closeButton (set_listeners (listener_add "click" L_signOut));;
  update closeButton (set_attributes (attr_remove "disabled"));;
  update saveButton (set_classList (token_remove "hidden"));;
  update disconnectButton (set_classList (token_remove "hidden"));;
  when (JS.truthy text) (updateNotepad text);;
  blockSave;;
  updateTitle (JS.nullish ens address).

Definition disconnectedState : M unit :=
  u ← metamask_undefined;
  when (negb u) (update metamaskButton (set_classList (token_remove "hidden")));;
  update walletConnectButton (set_classList (token_remove "hidden"));;
  update closeButton (set_listeners (listener_remove "click" L_signOut));;
  update closeButton (set_attributes (attr_set "disabled" "disabled"));;
  update saveButton (set_classList (token_add "hidden"));;
  update disconnectButton (set_classList (token_add "hidden")).

Definition maximize : M unit :=
  update toggleSize (set_listeners (listener_remove "click" L_maximize));;
  update toggleSize (set_listeners (listener_add "click" L_restore));;
  update toggleSize (set_ariaLabel "Restore");;
  update notepad (set_style "width" "99.7vw");;
  update notepad (set_style "height" "91.7vh").

Definition restore : M unit :=
  update toggleSize (set_listeners (listener_remove "click" L_restore));;
  update toggleSize (set_listeners (listener_add "click" L_maximize));;
  update toggleSize (set_ariaLabel "Maximize");;
  update notepad (set_style "width" "460px");;
  update notepad (set_style "height" "320px").

Definition json_headers : list (string * string) :=
  [("Content-Type", "application/json")].

Definition save_request (text : JS.jsstring) : Request :=
  mkRequest "/api/save" "PUT" "include" json_headers
            (Some (SaveBody (JS.stringify_text text))).

Definition too_big : string := "Your message is too big.".

(** [save], up to the [.then] of its request. *)
Definition save (e : option UIEvent) : M unit :=
  from_option (λ ev, effect (PreventDefault ev)) (mret tt) e;;
  np ← element notepad;
  let text := value np in
  if (43610 <? JS.byteLength (JS.stringify_text text))%Z then
    effect (Alert too_big)
  else
    fetch (save_request text) save_then.

Definition sign_out_request : Request :=
  mkRequest "/api/sign_out" "POST" "include" [] None.

(** [signOut], up to the [.then] of its request. *)
Definition signOut : M unit :=
  updateTitle "Untitled";;
  updateNotepad [];;
  fetch sign_out_request signOut_then.

(** [signIn], up to its first [await]. *)
Definition signIn (p : Provider) : M unit :=
  wallet (listAccounts p) (signIn_accounts p).

(** [signIn] from the destructuring of the accounts to the second [await]. *)
Definition signIn_address (p : Provider) (accounts : list string) : M unit :=
  match accounts with
  | address :: _ =>
      if bool_decide (address = EmptyString) then throw AddressNotFound
      else wallet (lookupAddress p address) (signIn_lookup p address)
  | [] => throw AddressNotFound
  end.

Definition nonce_request : Request :=
  mkRequest "/api/nonce" "GET" "include" [] None.

(** [signIn] after the try block, [ens] holding the looked-up name or the
    empty string it was initialised with: the title, then the nonce. *)
Definition signIn_title (p : Provider) (address ens : string) : M unit :=
  updateTitle (JS.nullish (Some ens) address);;
  fetch nonce_request (signIn_nonce p address ens).

(** [signIn] with the nonce: [document.location.host] is read for the
    first field of the message, then the network is awaited. *)
Definition signIn_message (p : Provider) (address ens nonce : string) : M unit :=
  host ← gets location_host;
  wallet (getNetwork p) (signIn_network p address ens nonce host).

(** [signIn] with the chain id: the message is built from the fields,
    which throws when the library refuses them, and the text the message
    prepares is given to the signer. *)
Definition signIn_sign (p : Provider) (address ens nonce host : string) (chain : Z) : M unit :=
  origin ← gets location_origin;
  let fields :=
    mkSiweMessage host address chain origin "1" "SIWE Notepad Example" nonce in
  built ← gets (λ s, new_SiweMessage s fields);
  match built with
  | Some message =>
      wallet (signMessage p (prepareMessage message)) (signIn_signature message ens)
  | None => throw (SiweError fields)
  end.

Definition sign_in_request (message : SiweMessage) (ens signature : string) : Request :=
  mkRequest "/api/sign_in" "POST" "include" json_headers
            (Some (SignInBody message ens signature)).

(** The callback of the sign-in request; [res.json()] is settled with the
    response. *)
Definition signIn_response (res : Response) : M unit :=
  if (status res =? 200)%Z then
    match body_json res with
    | Some d => connectedState (r_text d) (r_address d) (r_ens d)
    | None => throw (Rejection "res.json()")
    end
  else
    match body_json res with
    | Some _ => effect (ConsoleError (body_text res))
    | None => throw (Rejection "res.json()")
    end.

(** [connect], up to its [await]. *)
Definition connect (connector : Providers) : M unit :=
  mm ← gets metamask;
  if bool_decide (Providers_value connector = "metamask") && JS.to_boolean mm then
    wallet (eth_requestAccounts mm) (connect_requested mm)
  else
    effect OpenModal.

(** The callback given to [watchSigner]. *)
Definition onSigner (signer : option Signer) : M unit :=
  effect (ConsoleLog signer);;
  match signer ≫= signer_provider with
  | Some p => modify (set_wagmiProvider (Some p));; signIn p
  | None => modify (set_wagmiProvider None)
  end.

Definition me_request : Request :=
  mkRequest "/api/me" "GET" "include" [] None.

(** The callback of the /api/me request. *)
Definition me_response (res : Response) : M unit :=
  if (status res =? 200)%Z then
    match body_json res with
    | Some d => connectedState (r_text d) (r_address d) (r_ens d)
    | None => throw (Rejection "res.json()")
    end
  else disconnectedState.

(** The DOMContentLoaded listener. *)
Definition onDOMContentLoaded : M unit :=
  fetch me_request me_then;;
  modify (set_bound true);;
  u ← metamask_undefined;
  when u (update metamaskButton (set_classList (token_add "hidden")));;
  update toggleSize (set_listeners (listener_add "click" L_maximize));;
  update disconnectButton (set_listeners (listener_add "click" L_signOut));;
  update metamaskButton (set_listeners (listener_add "click" (L_connect METAMASK)));;
  update walletConnectButton (set_listeners (listener_add "click" (L_connect WALLET_CONNECT)));;
  update saveButton (set_listeners (listener_add "click" L_save));;
  update notepad (set_listeners (listener_add "input" L_enableSave)).

(** ** The event loop *)

(** A settled promise resumes the flow that waits for it.  A rejection
    propagates out of the flow, except inside the try block around the ENS
    lookup.  The environment settles a promise with a value of the kind of
    its call; the other combinations do nothing. *)
Definition resume (k : Cont) (r : Reply) : M unit :=
  match k, r with
  | signIn_lookup p address, Rejected reason =>
      effect (ConsoleError reason);; signIn_title p address EmptyString
  | _, Rejected reason => throw (Rejection reason)
  | connect_requested mm, Accounts _ =>
      modify (set_wagmiProvider (Some (Web3Provider mm)));;
      signIn (Web3Provider mm)
  | signIn_accounts p, Accounts l => signIn_address p l
  | signIn_lookup p address, EnsName name =>
      signIn_title p address (JS.nullish name EmptyString)
  | signIn_nonce p address ens, Http res =>
      signIn_message p address ens (body_text res)
  | signIn_network p address ens nonce host, Network chain =>
      signIn_sign p address ens nonce host chain
  | signIn_signature message ens, Signature sig =>
      fetch (sign_in_request message ens sig) signIn_verify
  | signIn_verify, Http res => signIn_response res
  | signOut_then, Http _ => disconnectedState
  | save_then, Http _ => blockSave
  | me_then, Http res => me_response res
  | _, _ => mret tt
  end.

Definition invoke (f : Listener) (e : UIEvent) : M unit :=
  match f with
  | L_maximize => maximize
  | L_restore => restore
  | L_signOut => signOut
  | L_connect c => connect c
  | L_save => save (Some e)
  | L_enableSave => enableSave
  end.

(** Dispatch of an event to an element: the listeners registered for the
    type when the dispatch starts are called in order, one that was removed
    in the meantime is skipped. *)
Definition dispatch (h : Handle) (type : string) (e : UIEvent) (s : State) : State :=
  foldl (λ s' p,
           if bool_decide (p.1 = type) && bool_decide (p ∈ listeners (document s' h))
           then run (invoke p.2 e) s' else s')
        s (listeners (document s h)).

(** The Mousetrap callback: [(e) => { save(e); }]. *)
Definition press (combo : string) (s : State) : State :=
  foldl (λ s' p, if bool_decide (p.1 = combo) then run (invoke p.2 KeyboardEvent) s' else s')
        s (hotkeys s).

Inductive Event :=
| DOMContentLoaded
| Click (h : Handle)
| Input (v : JS.jsstring)
| Hotkey (combo : string)
| SignerChanged (signer : option Signer)
| Settle (promise : nat) (r : Reply).

(** One turn of the event loop.  The browser fires DOMContentLoaded once;
    typing replaces the value of the notepad and fires its input event; a
    promise is settled once. *)
Definition step (ev : Event) (s : State) : State :=
  match ev with
  | DOMContentLoaded => if bound s then s else run onDOMContentLoaded s
  | Click h => dispatch h "click" MouseEvent s
  | Input v => dispatch notepad "input" InputEvent (set_document (alter (set_value v) notepad) s)
  | Hotkey combo => press combo s
  | SignerChanged signer => run (onSigner signer) s
  | Settle id r =>
      match pending s !! id with
      | Some k => run (resume k r) (set_pending (delete id) s)
      | None => s
      end
  end.

Definition steps (evs : list Event) (s : State) : State := foldl (λ s' ev, step ev s') s evs.

(** The state when the module has been evaluated: nothing bound but the
    hotkey, nothing pending. *)
Definition loaded (mm : JS.value) (host origin : string)
    (siwe : SiweMessage → option SiweMessage)
    (page : Handle → Element) (ttl : option Element) : State :=
  mkState mm host origin siwe page ttl None false None [("mod+s", L_save)] ∅ 0 [].

(** ** Observations *)

Definition hidden (e : Element) : bool := bool_decide ("hidden" ∈ classList e).
Definition disabled (e : Element) : bool := bool_decide (is_Some (attr_get "disabled" (attributes e))).
Definition listens (type : string) (f : Listener) (e : Element) : bool :=
  bool_decide ((type, f) ∈ listeners e).

(** The Disconnected state of the interface: connect buttons visible, save
    and disconnect affordances hidden, close button disabled. *)
Definition Disconnected (s : State) : bool :=
  negb (hidden (document s metamaskButton))
  && negb (hidden (document s walletConnectButton))
  && hidden (document s saveButton)
  && hidden (document s disconnectButton)
  && disabled (document s closeButton)
  && negb (listens "click" L_signOut (document s closeButton)).

(** The Connected state: connect buttons hidden, save and disconnect
    affordances shown, close button enabled. *)
Definition Connected (s : State) : bool :=
  hidden (document s metamaskButton)
  && hidden (document s walletConnectButton)
  && negb (hidden (document s saveButton))
  && negb (hidden (document s disconnectButton))
  && negb (disabled (document s closeButton))
  && listens "click" L_signOut (document s closeButton).

(** The dirty state: the unsaved-changes indicator and the unload guard. *)
Definition dirty (s : State) : bool :=
  bool_decide (innerText (document s unsaved) = unsaved_mark)
  && bool_decide (onbeforeunload s = Some unload_warning).

(** The clean state that [blockSave] establishes. *)
Definition clean (s : State) : bool :=
  bool_decide (innerText (document s unsaved) = EmptyString)
  && bool_decide (onbeforeunload s = None).

(** The save affordance is enabled: the button reacts and is not marked
    disabled. *)
Definition save_enabled (s : State) : bool :=
  listens "click" L_save (document s saveButton)
  && negb (disabled (document s saveButton)).

Definition fetches (l : list Effect) : list Request :=
  omap (λ e, match e with Fetch _ r => Some r | _ => None end) l.

Definition alerts (l : list Effect) : list string :=
  omap (λ e, match e with Alert m => Some m | _ => None end) l.

Definition uncaught (l : list Effect) : list Error :=
  omap (λ e, match e with Uncaught x => Some x | _ => None end) l.

Definition title_text (s : State) : option string := innerText <$> title s.

(** The asynchronous calls made, each with the promise it returned. *)
Definition calls (l : list Effect) : list Effect :=
  omap (λ e, match e with Fetch _ _ | Wallet _ _ => Some e | _ => None end) l.

(** The texts the wallet was asked to sign, with the provider asked. *)
Definition signing (l : list Effect) : list (Provider * MessageText) :=
  omap (λ e, match e with Wallet _ (signMessage p t) => Some (p, t) | _ => None end) l.

(** What is on the screen: every element, the title and the unload guard. *)
Definition screen (s : State) : list Element * option Element * option string :=
  (document s <$> all_handles, title s, onbeforeunload s).

(** A page for examples: elements without classes, attributes or text, and
    a title element. *)
Definition blank : Element := mkElement [] [] [] EmptyString [] None [].
Definition blank_page : Handle → Element := λ _, blank.

(** The state after [e?.preventDefault()]. *)
Definition prevented (e : option UIEvent) (s : State) : State :=
  from_option (λ ev, log (PreventDefault ev) s) s e.

(** The states the program can be in: those the event loop reaches from
    the evaluation of the module on a page whose elements carry no listener
    yet. *)
Inductive reachable : State → Prop :=
| reachable_loaded mm host origin siwe page ttl :
    (∀ h, listeners (page h) = []) →
    reachable (loaded mm host origin siwe page ttl)
| reachable_step ev s :
    reachable s → reachable (step ev s).

(** A handler (or a part of one) leaves an observation of the state as it
    is, whether it returns or throws. *)
Definition preserves {A X} (obs : State → X) (m : M A) : Prop :=
  ∀ s, obs (m s).2 = obs s.

(** The promise table is sound: every pending promise has been issued. *)
Definition issued (s : State) : Prop :=
  ∀ i, is_Some (pending s !! i) → i < next_promise s.

(** [s'] continues [s]: the promises of [s] are as they were, the others
    have been issued since. *)
Definition continues (s s' : State) : Prop :=
  next_promise s ≤ next_promise s'
  ∧ ∀ i, pending s' !! i = pending s !! i ∨ next_promise s ≤ i < next_promise s'.

Definition adds_promises {A} (m : M A) : Prop := ∀ s, continues s (m s).2.

(** The events [evs] do not settle the promise [id]. *)
Definition quiet (id : nat) (evs : list Event) : Prop := ∀ r, Settle id r ∉ evs.

(** A flow is suspended in [s] on the promise [id], to go on as [k]. *)
Definition waits (s : State) (id : nat) (k : Cont) : Prop :=
  pending s !! id = Some k ∧ issued s.

(** The state in which the handler of an event runs. *)
Definition settled (ev : Event) (s : State) : State :=
  match ev with
  | Settle id _ => set_pending (delete id) s
  | _ => s
  end.

(** A handler keeps an invariant of the state, whether it returns or
    throws. *)
Definition maintains {A} (I : State → Prop) (m : M A) : Prop := ∀ s, I s → I (m s).2.

(** The listeners of the page: none before the element variables are
    bound; afterwards the ones the DOMContentLoaded listener registers,
    with three that come and go: [save] on the save button, [signOut] on
    the close button, and [maximize] or [restore] on the size toggle. *)
Definition wiring (b save_on restored close_on : bool) (h : Handle) : list (string * Listener) :=
  if b then
    match h with
    | metamaskButton => [("click", L_connect METAMASK)]
    | walletConnectButton => [("click", L_connect WALLET_CONNECT)]
    | toggleSize => if restored then [("click", L_restore)] else [("click", L_maximize)]
    | closeButton => if close_on then [("click", L_signOut)] else []
    | disconnectButton => [("click", L_signOut)]
    | saveButton => if save_on then [("click", L_save)] else []
    | notepad => [("input", L_enableSave)]
    | unsaved => []
    end
  else [].

Definition wired (s : State) : Prop :=
  ∀ h, listeners (document s h) =
       wiring (bound s)
              (listens "click" L_save (document s saveButton))
              (listens "click" L_restore (document s toggleSize))
              (listens "click" L_signOut (document s closeButton)) h.

(** The requests of the backend contract, all sent with the session
    cookie. *)
Definition known_request (r : Request) : bool :=
  bool_decide (credentials r = "include")
  && bool_decide ((method r, url r) ∈
       [("GET", "/api/me"); ("GET", "/api/nonce"); ("POST", "/api/sign_in");
        ("POST", "/api/sign_out"); ("PUT", "/api/save")]).

Definition requests_known (s : State) : Prop :=
  Forall (λ r, known_request r = true) (fetches (effects s)).

(** The unload guard is only in place on a loaded page whose indicator
    shows unsaved changes and whose save affordance is enabled. *)
Definition guarded (s : State) : Prop :=
  onbeforeunload s = None
  ∨ (onbeforeunload s = Some unload_warning
     ∧ bound s = true
     ∧ innerText (document s unsaved) = unsaved_mark
     ∧ listens "click" L_save (document s saveButton) = true
     ∧ disabled (document s saveButton) = false).

(** ** Example states *)

(** An account in its checksummed form and a nonce as the server issues
    them. *)
Definition example_account : string := "0xABC6b51D431df5D7f141cBeCECcF79EdF3Dd861C".
Definition example_nonce : string := "Rk8sV2mQ7xLp4Tz9".

(** The library of the examples: it refuses a version other than 1, a
    nonce of less than eight characters and an address of other than
    forty-two, and gives back the fields it accepts. *)
Definition example_accepts (m : SiweMessage) : bool :=
  bool_decide (version m = "1")
  && bool_decide (8 ≤ String.length (nonce m))
  && bool_decide (String.length (address m) = 42).

Definition example_siwe (m : SiweMessage) : option SiweMessage :=
  if example_accepts m then Some m else None.

Definition example_session : Session :=
  mkSession (JS.units "hello") example_account (Some EmptyString).

Definition ok_response (d : option Session) : Response := mkResponse 200 EmptyString d.
Definition error_response (code : Z) : Response := mkResponse code EmptyString None.

(** A page without an injected provider, just loaded. *)
Definition fresh : State :=
  loaded JS.Undefined "example.org" "https://example.org" example_siwe blank_page
         (Some blank).

(** The same page once /api/me has answered 401 (Disconnected) or with a
    session (Connected, clean). *)
Definition anonymous : State :=
  steps [DOMContentLoaded; Settle 0 (Http (error_response 401))] fresh.

Definition signed_in : State :=
  steps [DOMContentLoaded; Settle 0 (Http (ok_response (Some example_session)))] fresh.

(** The signed-in page after the user has typed [D] into the notepad. *)
Definition typed (D : JS.jsstring) : State := step (Input D) signed_in.

(** The user has typed one character and clicked the save button: the
    request is in flight on promise 1. *)
Definition saving : State := step (Click saveButton) (typed (JS.units "a")).

(** The user types a second character while the request is in flight. *)
Definition edited_in_flight : State := step (Input (JS.units "ab")) saving.

Definition example_signer : option Signer := Some (mkSigner (Some (SignerProvider 7))).

(** A sign-in from the Disconnected page, up to the point where the title
    has been updated and the nonce is requested. *)
Definition nonce_requested (name : Reply) : State :=
  steps [SignerChanged example_signer; Settle 1 (Accounts [example_account]); Settle 2 name]
        anonymous.

(** The same sign-in once the signature has been given and the request to
    /api/sign_in is in flight on promise 6. *)
Definition verifying : State :=
  steps [Settle 3 (Http (mkResponse 200 example_nonce None)); Settle 4 (Network 1);
         Settle 5 (Signature "0xsig")]
        (nonce_requested (EnsName None)).

(** The save request of [saving] has been answered with 200: the document
    is clean and the save affordance disabled. *)
Definition saved : State := step (Settle 1 (Http (ok_response None))) saving.

(** The signed-in user has clicked the disconnect button: the request to
    /api/sign_out is in flight on promise 1. *)
Definition signing_out : State := step (Click disconnectButton) signed_in.

(** A page with an injected provider, Disconnected, on which the user has
    clicked the metamask button: the account request is on promise 1. *)
Definition requesting_accounts : State :=
  steps [DOMContentLoaded; Settle 0 (Http (error_response 401)); Click metamaskButton]
        (loaded (JS.Object 1) "example.org" "https://example.org" example_siwe blank_page
                (Some blank)).

(** The Disconnected page after the signer observer has reported a
    signer: the sign-in waits for the accounts on promise 1. *)
Definition listing_accounts : State := step (SignerChanged example_signer) anonymous.

(** The sign-in of [listing_accounts] once the wallet has listed the
    account: the ENS lookup is on promise 2. *)
Definition looking_up : State :=
  steps [SignerChanged example_signer; Settle 1 (Accounts [example_account])] anonymous.

(* ================================================================= *)
(** * Properties *)

(** ** Byte length of the serialised document *)

Section ByteLength.
Import JS.
Local Open Scope Z_scope.

Lemma pair_ind {A} (P : list A → Prop) :
  P [] → (∀ x, P [x]) → (∀ x y l, P l → P (y :: l) → P (x :: y :: l)) → ∀ l, P l.
Proof.
  intros H0 H1 H2 l. cut (P l ∧ ∀ x, P (x :: l)); [tauto|].
  induction l as [|y l [IH1 IH2]]; split; auto.
Qed.

Lemma byteLength_cons c r :
  is_high_surrogate c = false → byteLength (c :: r) = width c + byteLength r.
Proof. intros H. cbn [byteLength]. unfold width. rewrite H. by repeat case_match. Qed.

Lemma byteLength_pair c d r :
  is_high_surrogate c = true → is_low_surrogate d = true →
  byteLength (c :: d :: r) = 4 + byteLength r.
Proof.
  intros Hc Hd. cbn [byteLength]. rewrite Hc, Hd.
  unfold is_high_surrogate in Hc. repeat case_match; lia.
Qed.

Lemma byteLength_ascii a t :
  Forall (λ c, c < 128) a → byteLength (a ++ t) = Z.of_nat (length a) + byteLength t.
Proof.
  induction 1 as [|c a Hc _ IH]; [done|].
  cbn [app length byteLength]. case_match; lia.
Qed.

Lemma hex_digit_ascii c : hex_digit (Z.land c 15) < 128.
Proof.
  change 15 with (Z.ones 4). rewrite Z.land_ones by lia.
  pose proof (Z.mod_pos_bound c (2 ^ 4) ltac:(lia)). unfold hex_digit. case_match; lia.
Qed.

Lemma unicode_escape_ascii c : Forall (λ c, c < 128) (unicode_escape c).
Proof. unfold unicode_escape. repeat constructor; apply hex_digit_ascii. Qed.

Lemma byteLength_unicode_escape c t :
  byteLength (unicode_escape c ++ t) = 6 + byteLength t.
Proof. by rewrite byteLength_ascii by apply unicode_escape_ascii. Qed.

Lemma byteLength_unicode_escape_nil c : byteLength (unicode_escape c) = 6.
Proof. by rewrite <- (app_nil_r (unicode_escape c)), byteLength_unicode_escape. Qed.

Lemma byteLength_escape_unit c t :
  is_high_surrogate c = false →
  byteLength (escape_unit c ++ t) = byteLength (escape_unit c) + byteLength t
  ∧ 1 <= byteLength (escape_unit c) <= 6.
Proof.
  intros Hc. unfold escape_unit.
  repeat case_match;
    try (rewrite (byteLength_ascii _ t) by (repeat constructor; lia); cbn; lia).
  - rewrite byteLength_unicode_escape, byteLength_unicode_escape_nil. lia.
  - cbn [app]. rewrite !byteLength_cons by done. unfold width. cbn. repeat case_match; lia.
Qed.

Lemma quote_units_cons c r :
  quote_units (c :: r) =
    if is_high_surrogate c then
      match r with
      | d :: r' =>
          if is_low_surrogate d then c :: d :: quote_units r'
          else unicode_escape c ++ quote_units r
      | [] => unicode_escape c
      end
    else if is_low_surrogate c then unicode_escape c ++ quote_units r
    else escape_unit c ++ quote_units r.
Proof. done. Qed.

(** The escaped text never ends inside a surrogate pair, so its byte length
    adds up with what follows; every code unit of the text costs between
    one and six bytes. *)
Lemma byteLength_quote_units D t :
  byteLength (quote_units D ++ t) = byteLength (quote_units D) + byteLength t
  ∧ Z.of_nat (length D) <= byteLength (quote_units D) <= 6 * Z.of_nat (length D).
Proof.
  revert t. induction D as [|c|c d r IH1 IH2] using pair_ind; intros t.
  - cbn. lia.
  - cbn [quote_units]. destruct (is_high_surrogate c) eqn:Hc.
    + rewrite byteLength_unicode_escape, byteLength_unicode_escape_nil. cbn. lia.
    + destruct (is_low_surrogate c) eqn:Hl.
      * rewrite app_nil_r.
        rewrite byteLength_unicode_escape, byteLength_unicode_escape_nil. cbn. lia.
      * rewrite app_nil_r. destruct (byteLength_escape_unit c t Hc). cbn [length]. lia.
  - rewrite (quote_units_cons c (d :: r)). destruct (is_high_surrogate c) eqn:Hc.
    + destruct (is_low_surrogate d) eqn:Hd.
      * cbn [app]. rewrite !byteLength_pair by done.
        destruct (IH1 t) as [-> ?]. cbn [length]. lia.
      * rewrite <- app_assoc, !byteLength_unicode_escape.
        destruct (IH2 t) as [-> ?]. cbn [length] in *. lia.
    + destruct (is_low_surrogate c) eqn:Hl.
      * rewrite <- app_assoc, !byteLength_unicode_escape.
        destruct (IH2 t) as [-> ?]. cbn [length] in *. lia.
      * rewrite <- app_assoc.
        destruct (byteLength_escape_unit c (quote_units (d :: r) ++ t) Hc) as [-> ?].
        destruct (byteLength_escape_unit c (quote_units (d :: r)) Hc) as [-> ?].
        destruct (IH2 t) as [-> ?]. cbn [length] in *. lia.
Qed.

(** The eleven bytes of the braces, the key, the colon and the quotes. *)
Lemma byteLength_stringify_text D :
  byteLength (stringify_text D) = 11 + byteLength (quote_units D).
Proof.
  unfold stringify_text, quote.
  rewrite (byteLength_ascii [_;_;_;_;_;_;_;_]) by (repeat constructor; lia).
  rewrite <- !app_assoc.
  rewrite (byteLength_ascii [34]) by (repeat constructor; lia).
  destruct (byteLength_quote_units D ([34] ++ [125])) as [-> _].
  cbn. lia.
Qed.

Lemma byteLength_stringify_bounds D :
  11 + Z.of_nat (length D) <= byteLength (stringify_text D) <= 11 + 6 * Z.of_nat (length D).
Proof.
  rewrite byteLength_stringify_text.
  destruct (byteLength_quote_units D []) as [_ ?]. lia.
Qed.

Lemma quote_units_plain D : Forall plain D → quote_units D = D.
Proof.
  induction D as [|c|c d r IH1 IH2] using pair_ind; intros H; [done|..].
  - apply Forall_cons in H as [(?&?&?) _]. cbn [quote_units].
    replace (is_high_surrogate c) with false by (unfold is_high_surrogate; lia).
    replace (is_low_surrogate c) with false by (unfold is_low_surrogate; lia).
    unfold escape_unit. repeat case_match; try lia. done.
  - apply Forall_cons in H as [(?&?&?) Hr]. rewrite (quote_units_cons c (d :: r)).
    replace (is_high_surrogate c) with false by (unfold is_high_surrogate; lia).
    replace (is_low_surrogate c) with false by (unfold is_low_surrogate; lia).
    rewrite IH2 by done.
    unfold escape_unit. repeat case_match; try lia. done.
Qed.

Lemma byteLength_plain D :
  Forall plain D → byteLength (stringify_text D) = 11 + Z.of_nat (length D).
Proof.
  intros H. rewrite byteLength_stringify_text, quote_units_plain by done.
  rewrite <- (app_nil_r D) at 1. rewrite byteLength_ascii; [cbn; lia|].
  eapply Forall_impl; [done|]. unfold plain. intros; lia.
Qed.

End ByteLength.

(** ** Token lists, attributes and listeners *)

Section DomLists.

Lemma token_add_elem t l : t ∈ token_add t l.
Proof. unfold token_add. case_bool_decide; set_solver. Qed.

Lemma token_remove_elem t l : t ∉ token_remove t l.
Proof. unfold token_remove. rewrite list_elem_of_filter. tauto. Qed.

Lemma token_add_idem t l : token_add t (token_add t l) = token_add t l.
Proof. unfold token_add at 1. by rewrite bool_decide_eq_true_2 by apply token_add_elem. Qed.

Lemma token_remove_idem t l : token_remove t (token_remove t l) = token_remove t l.
Proof. unfold token_remove. apply list_filter_filter_l. tauto. Qed.

Lemma listener_add_elem ty f l : (ty, f) ∈ listener_add ty f l.
Proof. unfold listener_add. case_bool_decide; set_solver. Qed.

Lemma listener_remove_elem ty f l : (ty, f) ∉ listener_remove ty f l.
Proof. unfold listener_remove. rewrite list_elem_of_filter. tauto. Qed.

Lemma listener_add_idem ty f l : listener_add ty f (listener_add ty f l) = listener_add ty f l.
Proof. unfold listener_add at 1. by rewrite bool_decide_eq_true_2 by apply listener_add_elem. Qed.

Lemma listener_remove_idem ty f l :
  listener_remove ty f (listener_remove ty f l) = listener_remove ty f l.
Proof. unfold listener_remove. apply list_filter_filter_l. tauto. Qed.

Lemma attr_get_set n v l : attr_get n (attr_set n v l) = Some v.
Proof.
  induction l as [|[m w] l IH]; cbn.
  - by rewrite bool_decide_eq_true_2.
  - case_bool_decide; cbn; [by rewrite bool_decide_eq_true_2|].
    by rewrite bool_decide_eq_false_2.
Qed.

Lemma attr_get_remove n l : attr_get n (attr_remove n l) = None.
Proof.
  induction l as [|[m w] l IH]; [done|]. unfold attr_remove in *.
  rewrite filter_cons. cbn. case_decide; [|done].
  cbn. by rewrite bool_decide_eq_false_2.
Qed.

Lemma attr_set_idem n v l : attr_set n v (attr_set n v l) = attr_set n v l.
Proof.
  induction l as [|[m w] l IH]; cbn.
  - by rewrite bool_decide_eq_true_2.
  - case_bool_decide; cbn; [by rewrite bool_decide_eq_true_2|].
    rewrite bool_decide_eq_false_2 by done. by rewrite IH.
Qed.

Lemma attr_remove_idem n l : attr_remove n (attr_remove n l) = attr_remove n l.
Proof. unfold attr_remove. apply list_filter_filter_l. tauto. Qed.

Lemma token_add_decide t l : bool_decide (t ∈ token_add t l) = true.
Proof. apply bool_decide_eq_true_2, token_add_elem. Qed.

Lemma token_remove_decide t l : bool_decide (t ∈ token_remove t l) = false.
Proof. apply bool_decide_eq_false_2, token_remove_elem. Qed.

Lemma listener_add_decide ty f l : bool_decide ((ty, f) ∈ listener_add ty f l) = true.
Proof. apply bool_decide_eq_true_2, listener_add_elem. Qed.

Lemma listener_remove_decide ty f l : bool_decide ((ty, f) ∈ listener_remove ty f l) = false.
Proof. apply bool_decide_eq_false_2, listener_remove_elem. Qed.

Lemma attr_set_decide n v l : bool_decide (is_Some (attr_get n (attr_set n v l))) = true.
Proof. apply bool_decide_eq_true_2. rewrite attr_get_set. eauto. Qed.

Lemma attr_remove_decide n l : bool_decide (is_Some (attr_get n (attr_remove n l))) = false.
Proof. apply bool_decide_eq_false_2. rewrite attr_get_remove. by intros []. Qed.

End DomLists.

Global Arguments token_add : simpl never.
Global Arguments token_remove : simpl never.
Global Arguments listener_add : simpl never.
Global Arguments listener_remove : simpl never.
Global Arguments attr_set : simpl never.
Global Arguments attr_remove : simpl never.

Create Rewrite HintDb dom.
#[export] Hint Rewrite token_add_decide token_remove_decide listener_add_decide
  listener_remove_decide attr_set_decide attr_remove_decide
  token_add_idem token_remove_idem listener_add_idem listener_remove_idem
  attr_set_idem attr_remove_idem : dom.

(** ** The handlers as state transformers *)

Ltac at_handle :=
  repeat first [ rewrite fn_lookup_alter | rewrite fn_lookup_alter_ne by done ].

Lemma metamask_undefined_false s : metamask_undefined s = (Ok false, s).
Proof. unfold metamask_undefined. cbn. by destruct (metamask s). Qed.

Lemma disconnectedState_run s :
  bound s = true →
  disconnectedState s =
    (Ok tt,
     set_document
       (alter (set_classList (token_add "hidden")) disconnectButton
        ∘ alter (set_classList (token_add "hidden")) saveButton
        ∘ alter (set_attributes (attr_set "disabled" "disabled")) closeButton
        ∘ alter (set_listeners (listener_remove "click" L_signOut)) closeButton
        ∘ alter (set_classList (token_remove "hidden")) walletConnectButton
        ∘ alter (set_classList (token_remove "hidden")) metamaskButton) s).
Proof.
  intros Hb. unfold disconnectedState. unfold mbind at 1, M_bind at 1.
  rewrite metamask_undefined_false. destruct s; cbn in *; subst. reflexivity.
Qed.

Lemma disconnectedState_Disconnected s :
  bound s = true → Disconnected (run disconnectedState s) = true.
Proof.
  intros Hb. unfold run. rewrite disconnectedState_run by done.
  unfold Disconnected, hidden, disabled, listens. cbn. at_handle. cbn.
  by autorewrite with dom.
Qed.

Lemma connectedState_run text address ens s :
  bound s = true →
  connectedState text address ens s =
    (Ok tt,
     set_title (fmap (set_innerText (JS.nullish ens address)))
       (set_onbeforeunload None
          (set_document
             (alter (set_innerText EmptyString) unsaved
              ∘ alter (set_attributes (attr_set "disabled" "true")) saveButton
              ∘ alter (set_listeners (listener_remove "click" L_save)) saveButton
              ∘ (if JS.truthy text then alter (set_value (JS.normalize_newlines text)) notepad
                 else id)
              ∘ alter (set_classList (token_remove "hidden")) disconnectButton
              ∘ alter (set_classList (token_remove "hidden")) saveButton
              ∘ alter (set_attributes (attr_remove "disabled")) closeButton
              ∘ alter (set_listeners (listener_add "click" L_signOut)) closeButton
              ∘ alter (set_classList (token_add "hidden")) walletConnectButton
              ∘ alter (set_classList (token_add "hidden")) metamaskButton) s))).
Proof.
  intros Hb. destruct s; cbn in *; subst.
  unfold connectedState, mbind, M_bind. cbn. by destruct (JS.truthy text).
Qed.

Lemma connectedState_Connected text address ens s :
  bound s = true →
  let s' := run (connectedState text address ens) s in
  Connected s' = true ∧ clean s' = true ∧ save_enabled s' = false
  ∧ title_text s' = (λ _, JS.nullish ens address) <$> title s.
Proof.
  intros Hb. unfold run. rewrite connectedState_run by done.
  unfold Connected, clean, save_enabled, hidden, disabled, listens, title_text.
  cbn. destruct (JS.truthy text); cbn; at_handle; cbn; autorewrite with dom.
  all: by destruct (title s).
Qed.

Lemma blockSave_run s :
  bound s = true →
  blockSave s =
    (Ok tt,
     set_onbeforeunload None
       (set_document
          (alter (set_innerText EmptyString) unsaved
           ∘ alter (set_attributes (attr_set "disabled" "true")) saveButton
           ∘ alter (set_listeners (listener_remove "click" L_save)) saveButton) s)).
Proof. intros Hb. destruct s; cbn in *; subst. reflexivity. Qed.

Lemma enableSave_run s :
  bound s = true →
  enableSave s =
    (Ok tt,
     set_onbeforeunload (Some unload_warning)
       (set_document
          (alter (set_innerText unsaved_mark) unsaved
           ∘ alter (set_attributes (attr_remove "disabled")) saveButton
           ∘ alter (set_listeners (listener_add "click" L_save)) saveButton) s)).
Proof. intros Hb. destruct s; cbn in *; subst. reflexivity. Qed.

Lemma signOut_run s :
  bound s = true →
  signOut s =
    (Ok tt,
     set_next_promise (S (next_promise s))
       (set_pending (<[next_promise s := signOut_then]>)
          (log (Fetch (next_promise s) sign_out_request)
             (set_document (alter (set_value []) notepad)
                (set_title (fmap (set_innerText "Untitled")) s))))).
Proof. intros Hb. destruct s; cbn in *; subst. reflexivity. Qed.

Lemma settle_pending id k r s :
  pending s !! id = Some k →
  step (Settle id r) s = run (resume k r) (set_pending (delete id) s).
Proof. intros H. cbn. by rewrite H. Qed.

(** ** Saving *)

Lemma fetches_app l k : fetches (l ++ k) = fetches l ++ fetches k.
Proof. apply omap_app. Qed.
Lemma alerts_app l k : alerts (l ++ k) = alerts l ++ alerts k.
Proof. apply omap_app. Qed.
Lemma uncaught_app l k : uncaught (l ++ k) = uncaught l ++ uncaught k.
Proof. apply omap_app. Qed.

Lemma effects_prevented e s :
  fetches (effects (prevented e s)) = fetches (effects s)
  ∧ alerts (effects (prevented e s)) = alerts (effects s).
Proof. destruct e; cbn; rewrite ?fetches_app, ?alerts_app, ?app_nil_r; done. Qed.

Lemma save_run e s :
  bound s = true →
  run (save e) s =
    let s1 := prevented e s in
    let D := value (document s notepad) in
    if (43610 <? JS.byteLength (JS.stringify_text D))%Z then log (Alert too_big) s1
    else set_next_promise (S (next_promise s))
           (set_pending (<[next_promise s := save_then]>)
              (log (Fetch (next_promise s) (save_request D)) s1)).
Proof.
  intros Hb. destruct s, e; cbn in *; subst; unfold run, save, mbind, M_bind; cbn.
  all: destruct (_ <? _)%Z; reflexivity.
Qed.

(** Claim C1.  For every document text [D] in the notepad, [save] is
    rejected on the client, with the alert and without any request, if and
    only if the byte length of [JSON.stringify({ text: D })] exceeds 43,610;
    otherwise one PUT /api/save request carrying that serialisation is
    issued and nothing is alerted. *)
Theorem save_size_gate (e : option UIEvent) (s : State) :
  bound s = true →
  let D := value (document s notepad) in
  let s' := run (save e) s in
  ((fetches (effects s') = fetches (effects s)
    ∧ alerts (effects s') = alerts (effects s) ++ ["Your message is too big."])
   ↔ (43610 < JS.byteLength (JS.stringify_text D))%Z)
  ∧ (¬ (43610 < JS.byteLength (JS.stringify_text D))%Z →
     fetches (effects s') =
       fetches (effects s) ++
         [mkRequest "/api/save" "PUT" "include" [("Content-Type", "application/json")]
                    (Some (SaveBody (JS.stringify_text D)))]
     ∧ alerts (effects s') = alerts (effects s)).
Proof.
  intros Hb D s'. subst D s'. rewrite save_run by done. cbn zeta.
  unfold save_request.
  generalize (JS.stringify_text (value (document s notepad))). intros b.
  generalize (JS.byteLength b). intros n.
  destruct (effects_prevented e s) as [Hf Ha].
  destruct (Z.ltb_spec 43610 n) as [Hbig|Hok]; cbn.
  - rewrite fetches_app, alerts_app, Hf, Ha, app_nil_r. split; [tauto|intros; lia].
  - rewrite fetches_app, alerts_app, Hf, Ha, app_nil_r. split; [split|done].
    + intros [Hno _]. apply (f_equal length) in Hno. rewrite length_app in Hno. cbn in Hno. lia.
    + lia.
Qed.

Lemma save_size_gate_witness :
  fetches (effects (run (save (Some MouseEvent)) (typed (JS.units "hi")))) =
    [me_request; save_request (JS.units "hi")].
Proof.
  apply (proj2 (save_size_gate (Some MouseEvent) (typed (JS.units "hi")) eq_refl)).
  vm_compute. discriminate.
Defined.

(** The gate in terms of the text.  No text of more than 43,599 code units
    is ever sent; a text of printable ASCII characters without quote or
    backslash is sent exactly when it has at most 43,599 characters. *)
Lemma save_rejects_long_text e s :
  bound s = true →
  (43599 < Z.of_nat (length (value (document s notepad))))%Z →
  fetches (effects (run (save e) s)) = fetches (effects s)
  ∧ alerts (effects (run (save e) s)) = alerts (effects s) ++ [too_big].
Proof.
  intros Hb Hlen. rewrite save_run by done. cbn zeta.
  pose proof (byteLength_stringify_bounds (value (document s notepad))) as [Hlo _].
  rewrite (proj2 (Z.ltb_lt _ _)) by lia.
  destruct (effects_prevented e s) as [Hf Ha].
  cbn. by rewrite fetches_app, alerts_app, Hf, Ha, app_nil_r.
Qed.

Lemma save_sends_plain_text e s :
  bound s = true →
  Forall JS.plain (value (document s notepad)) →
  (Z.of_nat (length (value (document s notepad))) <= 43599)%Z →
  fetches (effects (run (save e) s))
  = fetches (effects s) ++ [save_request (value (document s notepad))]
  ∧ alerts (effects (run (save e) s)) = alerts (effects s).
Proof.
  intros Hb Hplain Hlen. rewrite save_run by done. cbn zeta.
  rewrite (proj2 (Z.ltb_ge _ _)) by (rewrite byteLength_plain by done; lia).
  destruct (effects_prevented e s) as [Hf Ha].
  cbn. by rewrite fetches_app, alerts_app, Hf, Ha, app_nil_r.
Qed.

(** The scenario of the specification: a text of 50,000 bytes is rejected
    locally, no PUT request is recorded and the user sees the alert. *)
Lemma save_rejects_50000_bytes :
  let D := replicate (Z.to_nat 50000) 97%Z in
  let s := run (save (Some MouseEvent)) (typed D) in
  fetches (effects s) = [me_request] ∧ alerts (effects s) = [too_big].
Proof.
  cbn zeta. remember (replicate _ _) as D eqn:HD.
  destruct (save_rejects_long_text (Some MouseEvent) (typed D) eq_refl) as [-> ->]; [|done].
  change (value (document (typed D) notepad)) with D.
  rewrite HD, length_replicate. lia.
Qed.

(** What the settlement of a save request does. *)
Lemma save_then_resolved id res s :
  bound s = true → pending s !! id = Some save_then →
  step (Settle id (Http res)) s =
    set_onbeforeunload None
      (set_document
         (alter (set_innerText EmptyString) unsaved
          ∘ alter (set_attributes (attr_set "disabled" "true")) saveButton
          ∘ alter (set_listeners (listener_remove "click" L_save)) saveButton)
         (set_pending (delete id) s)).
Proof.
  intros Hb Hp. rewrite (settle_pending _ _ _ _ Hp). unfold run. cbn [resume].
  by rewrite blockSave_run.
Qed.

Lemma save_then_rejected id reason s :
  pending s !! id = Some save_then →
  step (Settle id (Rejected reason)) s =
    log (Uncaught (Rejection reason)) (set_pending (delete id) s).
Proof. intros Hp. by rewrite (settle_pending _ _ _ _ Hp). Qed.

(** Typing into the notepad of the loaded page. *)
Lemma input_run v s :
  bound s = true → listeners (document s notepad) = [("input", L_enableSave)] →
  step (Input v) s =
    set_onbeforeunload (Some unload_warning)
      (set_document
         (alter (set_innerText unsaved_mark) unsaved
          ∘ alter (set_attributes (attr_remove "disabled")) saveButton
          ∘ alter (set_listeners (listener_add "click" L_save)) saveButton
          ∘ alter (set_value v) notepad) s).
Proof.
  intros Hb Hl. cbn [step]. unfold dispatch. cbn [document set_document].
  rewrite fn_lookup_alter. cbn [listeners set_value]. rewrite Hl. cbn [foldl fst snd].
  cbn [document set_document]. rewrite fn_lookup_alter. cbn [listeners set_value]. rewrite Hl.
  rewrite !bool_decide_eq_true_2 by (done || set_solver). cbn [andb invoke].
  unfold run. by rewrite enableSave_run.
Qed.

(** Half of what claim C3 asks for does hold: a save whose request fails
    in transport changes nothing on the screen. *)
Lemma save_transport_error_keeps_screen id reason s :
  pending s !! id = Some save_then →
  screen (step (Settle id (Rejected reason)) s) = screen s.
Proof. intros Hp. by rewrite save_then_rejected. Qed.

(** Claim C2, as the code has it.  While a save request is in flight an
    input event marks the document dirty again and enables the save
    affordance, and the request stays pending; but when the 200 response
    arrives, [blockSave] runs without looking at what happened meanwhile:
    the unsaved-changes indicator is emptied, the unload guard is removed
    and the save affordance is disabled, while the notepad keeps the later
    text. *)
Theorem save_response_clears_later_edit s id v res :
  bound s = true →
  listeners (document s notepad) = [("input", L_enableSave)] →
  pending s !! id = Some save_then →
  status res = 200%Z →
  let edited := step (Input v) s in
  let settled := step (Settle id (Http res)) edited in
  dirty edited = true ∧ save_enabled edited = true
  ∧ pending edited !! id = Some save_then
  ∧ clean settled = true ∧ dirty settled = false ∧ save_enabled settled = false
  ∧ value (document settled notepad) = v.
Proof.
  intros Hb Hl Hp _ edited settled. subst settled edited.
  rewrite input_run by done. rewrite save_then_resolved by done.
  unfold dirty, clean, save_enabled, disabled, listens.
  cbn. at_handle. cbn. autorewrite with dom. done.
Qed.

Lemma save_response_clears_later_edit_witness :
  clean (step (Settle 1 (Http (ok_response None))) edited_in_flight) = true.
Proof.
  apply (save_response_clears_later_edit saving 1 (JS.units "ab") (ok_response None));
    reflexivity.
Defined.

(** Claim C2 as stated fails: the user types [a], saves, types a second
    character while the request is in flight, and the 200 response then
    clears the dirty state although the notepad holds text that was never
    sent. *)
Lemma save_completion_clears_dirty :
  let settled := step (Settle 1 (Http (ok_response None))) edited_in_flight in
  pending saving !! 1%nat = Some save_then
  ∧ fetches (effects settled) = [me_request; save_request (JS.units "a")]
  ∧ dirty edited_in_flight = true
  ∧ value (document settled notepad) = JS.units "ab"
  ∧ dirty settled = false
  ∧ onbeforeunload settled = None
  ∧ innerText (document settled unsaved) = EmptyString.
Proof. vm_compute. done. Qed.

(** Claim C3 at its failing input: the save request is answered with
    status 500, and the page nevertheless shows the document as saved: the
    indicator is emptied, the unload guard removed and the save affordance
    disabled. *)
Lemma failed_save_appears_saved :
  let failed := step (Settle 1 (Http (error_response 500))) saving in
  dirty saving = true ∧ save_enabled saving = true
  ∧ dirty failed = false ∧ clean failed = true ∧ save_enabled failed = false.
Proof. vm_compute. done. Qed.

(** ** Signing out *)

Lemma run_signOut s :
  bound s = true →
  run signOut s =
    set_next_promise (S (next_promise s))
      (set_pending (<[next_promise s := signOut_then]>)
         (log (Fetch (next_promise s) sign_out_request)
            (set_document (alter (set_value []) notepad)
               (set_title (fmap (set_innerText "Untitled")) s)))).
Proof. intros Hb. unfold run. by rewrite signOut_run. Qed.

Lemma signOut_then_resolved id res s :
  bound s = true → pending s !! id = Some signOut_then →
  step (Settle id (Http res)) s = run disconnectedState (set_pending (delete id) s).
Proof. intros Hb Hp. by rewrite (settle_pending _ _ _ _ Hp). Qed.

(** A sign-out whose request is answered, from any state of the loaded
    page: the state it ends in. *)
Lemma signed_out_state res s :
  bound s = true →
  step (Settle (next_promise s) (Http res)) (run signOut s) =
    set_document
      (alter (set_classList (token_add "hidden")) disconnectButton
       ∘ alter (set_classList (token_add "hidden")) saveButton
       ∘ alter (set_attributes (attr_set "disabled" "disabled")) closeButton
       ∘ alter (set_listeners (listener_remove "click" L_signOut)) closeButton
       ∘ alter (set_classList (token_remove "hidden")) walletConnectButton
       ∘ alter (set_classList (token_remove "hidden")) metamaskButton)
      (set_pending (delete (next_promise s))
         (set_next_promise (S (next_promise s))
            (set_pending (<[next_promise s := signOut_then]>)
               (log (Fetch (next_promise s) sign_out_request)
                  (set_document (alter (set_value []) notepad)
                     (set_title (fmap (set_innerText "Untitled")) s)))))).
Proof.
  intros Hb. rewrite run_signOut by done.
  rewrite signOut_then_resolved; [|done|cbn; apply lookup_insert_eq].
  unfold run. by rewrite disconnectedState_run.
Qed.

(** Claim C7, as the code has it.  [signOut] resets the title and empties
    the notepad at once and sends POST /api/sign_out; the interface is put
    in the Disconnected state when that request is answered, whatever the
    status; when the request fails in transport the callback does not run
    and the screen stays as the call left it. *)
Theorem signOut_resolution (s : State) :
  bound s = true →
  let out := run signOut s in
  title_text out = (λ _, "Untitled") <$> title s
  ∧ value (document out notepad) = []
  ∧ effects out = effects s ++ [Fetch (next_promise s) sign_out_request]
  ∧ pending out !! next_promise s = Some signOut_then
  ∧ (∀ res, Disconnected (step (Settle (next_promise s) (Http res)) out) = true)
  ∧ (∀ reason, screen (step (Settle (next_promise s) (Rejected reason)) out) = screen out).
Proof.
  intros Hb out. split_and!.
  - subst out. rewrite run_signOut by done. unfold title_text. cbn. by destruct (title s).
  - subst out. rewrite run_signOut by done. cbn. by at_handle.
  - subst out. by rewrite run_signOut.
  - subst out. rewrite run_signOut by done. cbn. apply lookup_insert_eq.
  - intros res. subst out. rewrite signed_out_state by done.
    unfold Disconnected, hidden, disabled, listens. cbn. at_handle. cbn.
    by autorewrite with dom.
  - intros reason. subst out. rewrite run_signOut by done.
    rewrite (settle_pending _ signOut_then); [done|]. cbn. apply lookup_insert_eq.
Qed.

Lemma signOut_resolution_witness :
  Disconnected (step (Settle 1 (Http (error_response 500))) (run signOut signed_in)) = true.
Proof.
  pose proof (signOut_resolution signed_in eq_refl) as (_ & _ & _ & _ & H & _).
  apply (H (error_response 500)).
Defined.

(** Claim C7 as stated fails: when the request to /api/sign_out fails in
    transport the interface is not put in the Disconnected state; the connect
    buttons stay hidden and the save and disconnect affordances stay shown,
    over an emptied notepad. *)
Lemma sign_out_transport_error_stays_connected :
  let failed := step (Settle 1 (Rejected "Failed to fetch")) signing_out in
  pending signing_out !! 1%nat = Some signOut_then
  ∧ Disconnected failed = false
  ∧ Connected failed = true
  ∧ hidden (document failed saveButton) = false
  ∧ hidden (document failed metamaskButton) = true
  ∧ disabled (document failed closeButton) = false
  ∧ uncaught (effects failed) = [Rejection "Failed to fetch"].
Proof. vm_compute. done. Qed.

(** Claim C8.  Two sign-outs in succession, each answered by the server,
    on a page with a title element: the first ends in the Disconnected state
    with the title Untitled and an empty notepad, the second ends with the
    same screen, and neither raises an error. *)
Theorem signOut_twice (s : State) (res1 res2 : Response) :
  bound s = true →
  is_Some (title s) →
  let once := step (Settle (next_promise s) (Http res1)) (run signOut s) in
  let twice := step (Settle (next_promise once) (Http res2)) (run signOut once) in
  Disconnected once = true
  ∧ title_text once = Some "Untitled"
  ∧ value (document once notepad) = []
  ∧ Disconnected twice = true
  ∧ screen twice = screen once
  ∧ uncaught (effects once) = uncaught (effects s)
  ∧ uncaught (effects twice) = uncaught (effects s).
Proof.
  intros Hb [t Ht] once twice.
  assert (Hb1 : bound once = true).
  { subst once. by rewrite signed_out_state. }
  subst twice. rewrite (signed_out_state res2 once) by done.
  subst once. rewrite (signed_out_state res1 s) by done.
  unfold Disconnected, hidden, disabled, listens, title_text, screen.
  cbn. rewrite Ht. at_handle. rewrite !uncaught_app.
  unfold set_classList, set_attributes, set_listeners, set_value. cbn.
  autorewrite with dom. rewrite !app_nil_r. done.
Qed.

Lemma signOut_twice_witness :
  let once := step (Settle 1 (Http (ok_response None))) (run signOut signed_in) in
  let twice := step (Settle 2 (Http (ok_response None))) (run signOut once) in
  screen twice = screen once.
Proof.
  apply (signOut_twice signed_in (ok_response None) (ok_response None) eq_refl).
  cbn. eauto.
Defined.

(** ** Loading the page *)

(** [typeof] yields a string, and a string is never strictly equal to
    undefined: the test of the injected provider is false whatever
    [window.ethereum] holds. *)
Lemma typeof_never_undefined (v : JS.value) :
  JS.strict_eq (JS.Str (JS.typeof v)) JS.Undefined = false.
Proof. done. Qed.

Lemma run_onDOMContentLoaded s :
  run onDOMContentLoaded s =
    set_document
      (alter (set_listeners (listener_add "input" L_enableSave)) notepad
       ∘ alter (set_listeners (listener_add "click" L_save)) saveButton
       ∘ alter (set_listeners (listener_add "click" (L_connect WALLET_CONNECT))) walletConnectButton
       ∘ alter (set_listeners (listener_add "click" (L_connect METAMASK))) metamaskButton
       ∘ alter (set_listeners (listener_add "click" L_signOut)) disconnectButton
       ∘ alter (set_listeners (listener_add "click" L_maximize)) toggleSize)
      (set_bound true
         (set_next_promise (S (next_promise s))
            (set_pending (<[next_promise s := me_then]>)
               (log (Fetch (next_promise s) me_request) s)))).
Proof. destruct s as [mm ? ? ? ? ? ? ? ? ? ? ? ?]. by destruct mm. Qed.

(** The listener of DOMContentLoaded never touches the classes of the
    injected-provider button, with or without an injected provider. *)
Lemma DOMContentLoaded_keeps_metamaskButton_classes s :
  classList (document (step DOMContentLoaded s) metamaskButton)
  = classList (document s metamaskButton).
Proof.
  cbn [step]. destruct (bound s); [done|]. rewrite run_onDOMContentLoaded.
  cbn. by at_handle.
Qed.

(** Claim C6 at its failing input: a page without injected provider whose
    button is visible in the markup.  The button is still visible after the
    DOMContentLoaded listener has run, and after /api/me has answered that
    there is no session. *)
Lemma metamask_button_stays_visible :
  metamask fresh = JS.Undefined
  ∧ hidden (document fresh metamaskButton) = false
  ∧ hidden (document (step DOMContentLoaded fresh) metamaskButton) = false
  ∧ hidden (document anonymous metamaskButton) = false
  ∧ Disconnected anonymous = true.
Proof. vm_compute. done. Qed.

(** ** Signing in *)

Lemma no_signer_run signer s :
  signer ≫= signer_provider = None →
  step (SignerChanged signer) s = set_wagmiProvider None (log (ConsoleLog signer) s).
Proof.
  intros H. cbn [step]. unfold run, onSigner, mbind at 1, M_bind at 1. cbn. by rewrite H.
Qed.

Lemma signIn_verify_resolved id res d s :
  bound s = true → pending s !! id = Some signIn_verify →
  status res = 200%Z → body_json res = Some d →
  step (Settle id (Http res)) s =
    run (connectedState (r_text d) (r_address d) (r_ens d)) (set_pending (delete id) s).
Proof.
  intros Hb Hp Hs Hj. rewrite (settle_pending _ _ _ _ Hp).
  cbn [resume]. unfold signIn_response. by rewrite Hs, Hj.
Qed.

(** Claim C4, as the code has it.  When the signer observer reports no
    signer (or a signer without provider) the callback only clears the
    module's provider reference: the screen and the pending requests are
    left as they are and nothing is sent.  A 200 answer to a sign-in
    verification that arrives afterwards is applied all the same and puts
    the interface in the Connected state. *)
Theorem no_signer_clears_provider_only (signer : option Signer) (s : State) :
  signer ≫= signer_provider = None →
  let gone := step (SignerChanged signer) s in
  wagmiProvider gone = None
  ∧ screen gone = screen s
  ∧ pending gone = pending s
  ∧ fetches (effects gone) = fetches (effects s)
  ∧ ∀ id res d,
      bound s = true → pending s !! id = Some signIn_verify →
      status res = 200%Z → body_json res = Some d →
      Connected (step (Settle id (Http res)) gone) = true.
Proof.
  intros H gone. subst gone. rewrite no_signer_run by done. split_and!; try done.
  - cbn. by rewrite fetches_app, app_nil_r.
  - intros id res d Hb Hp Hs Hj.
    rewrite (signIn_verify_resolved id res d) by done.
    by apply connectedState_Connected.
Qed.

Lemma no_signer_clears_provider_only_witness :
  Connected (step (Settle 6 (Http (ok_response (Some example_session))))
               (step (SignerChanged None) verifying)) = true.
Proof.
  pose proof (no_signer_clears_provider_only None verifying eq_refl) as (_ & _ & _ & _ & H).
  apply (H 6%nat (ok_response (Some example_session)) example_session); reflexivity.
Defined.

(** Claim C4 as stated fails.  On the signed-in page a report of no signer
    leaves the interface Connected; and when the report comes while a
    sign-in is being verified, the 200 answer that follows is not discarded:
    the interface leaves the Disconnected state and shows the document. *)
Lemma verify_after_no_signer_connects :
  let gone := step (SignerChanged None) verifying in
  let answered := step (Settle 6 (Http (ok_response (Some example_session)))) gone in
  Connected (step (SignerChanged None) signed_in) = true
  ∧ Disconnected (step (SignerChanged None) signed_in) = false
  ∧ pending verifying !! 6%nat = Some signIn_verify
  ∧ wagmiProvider gone = None
  ∧ Disconnected gone = true
  ∧ Connected answered = true
  ∧ Disconnected answered = false
  ∧ value (document answered notepad) = JS.units "hello".
Proof. vm_compute. done. Qed.

(** After the ENS lookup the title is set to the name held by [ens], which
    is a string in every case: the address is never used. *)
Lemma signIn_title_ignores_address p address ens s :
  title_text (run (signIn_title p address ens) s) = (λ _, ens) <$> title s.
Proof.
  unfold title_text, run, signIn_title, updateTitle, fetch, suspend, mbind, M_bind.
  cbn. by destruct (title s).
Qed.

(** Claim C5 at its failing inputs.  The account has no ENS name, or
    the lookup fails: the title becomes the empty string, not the address.
    And when the server answers the verification with [ens] equal to the
    empty string, the title is the empty string again, over the notepad
    holding the document. *)
Lemma title_without_ens_is_empty :
  let answered := step (Settle 6 (Http (ok_response (Some example_session)))) verifying in
  title_text (nonce_requested (EnsName None)) = Some EmptyString
  ∧ title_text (nonce_requested (Rejected "lookup failed")) = Some EmptyString
  ∧ r_address example_session = "0xABC6b51D431df5D7f141cBeCECcF79EdF3Dd861C"
  ∧ r_ens example_session = Some EmptyString
  ∧ title_text answered = Some EmptyString
  ∧ value (document answered notepad) = JS.units "hello"
  ∧ uncaught (effects answered) = [].
Proof. vm_compute. done. Qed.

(** ** What no handler changes *)

Section Frame.

Context {X : Type} (obs : State → X).
Hypothesis obs_document : ∀ f s, obs (set_document f s) = obs s.
Hypothesis obs_title : ∀ f s, obs (set_title f s) = obs s.
Hypothesis obs_onbeforeunload : ∀ h s, obs (set_onbeforeunload h s) = obs s.
Hypothesis obs_bound : ∀ b s, obs (set_bound b s) = obs s.
Hypothesis obs_wagmiProvider : ∀ p s, obs (set_wagmiProvider p s) = obs s.
Hypothesis obs_pending : ∀ f s, obs (set_pending f s) = obs s.
Hypothesis obs_next_promise : ∀ n s, obs (set_next_promise n s) = obs s.
Hypothesis obs_log : ∀ e s, obs (log e s) = obs s.

Lemma preserves_ret {A} (a : A) : preserves obs (mret a).
Proof. done. Qed.

Lemma preserves_throw {A} e : preserves obs (throw (A := A) e).
Proof. done. Qed.

Lemma preserves_gets {A} (f : State → A) : preserves obs (gets f).
Proof. done. Qed.

Lemma preserves_modify f : (∀ s, obs (f s) = obs s) → preserves obs (modify f).
Proof. intros Hf s. apply Hf. Qed.

Lemma preserves_bind {A B} (m : M A) (f : A → M B) :
  preserves obs m → (∀ a, preserves obs (f a)) → preserves obs (m ≫= f).
Proof.
  intros Hm Hf s. unfold mbind, M_bind. specialize (Hm s).
  destruct (m s) as [[a|e] s']; cbn in *; [by rewrite Hf|done].
Qed.

Lemma preserves_when b (m : M unit) : preserves obs m → preserves obs (when b m).
Proof. by destruct b. Qed.

Lemma preserves_element h : preserves obs (element h).
Proof. intros s. unfold element. by destruct (bound s). Qed.

Lemma preserves_update h f : preserves obs (update h f).
Proof.
  apply preserves_bind; [apply preserves_element|]. intros _ s. apply obs_document.
Qed.

Lemma preserves_suspend call k : preserves obs (suspend call k).
Proof.
  intros s. unfold suspend, suspended. cbn.
  by rewrite obs_next_promise, obs_pending, obs_log.
Qed.

Lemma preserves_effect e : preserves obs (effect e).
Proof. intros s. apply obs_log. Qed.

Lemma preserves_updateTitle t : preserves obs (updateTitle t).
Proof. intros s. apply obs_title. Qed.

Lemma preserves_metamask_undefined : preserves obs metamask_undefined.
Proof. done. Qed.

Ltac frame :=
  repeat first
    [ apply preserves_when
    | apply preserves_update
    | apply preserves_suspend
    | apply preserves_effect
    | apply preserves_updateTitle
    | apply preserves_metamask_undefined
    | apply preserves_element
    | apply preserves_ret
    | apply preserves_throw
    | apply preserves_gets
    | apply preserves_bind; [|intros ?]
    | apply preserves_modify; intros ?;
      first [apply obs_onbeforeunload | apply obs_wagmiProvider | apply obs_bound] ].

Lemma preserves_blockSave : preserves obs blockSave.
Proof. unfold blockSave, updateUnsavedChanges. frame. Qed.

Lemma preserves_enableSave : preserves obs enableSave.
Proof. unfold enableSave, updateUnsavedChanges. frame. Qed.

Lemma preserves_connectedState text address ens :
  preserves obs (connectedState text address ens).
Proof. unfold connectedState, updateNotepad. frame. Qed.

Lemma preserves_disconnectedState : preserves obs disconnectedState.
Proof. unfold disconnectedState. frame. Qed.

Lemma preserves_maximize : preserves obs maximize.
Proof. unfold maximize. frame. Qed.

Lemma preserves_restore : preserves obs restore.
Proof. unfold restore. frame. Qed.

Lemma preserves_save e : preserves obs (save e).
Proof. unfold save, fetch. destruct e; cbn [from_option]; frame; case_match; frame. Qed.

Lemma preserves_signOut : preserves obs signOut.
Proof. unfold signOut, updateNotepad, fetch. frame. Qed.

Lemma preserves_signIn p : preserves obs (signIn p).
Proof. unfold signIn, wallet. frame. Qed.

Lemma preserves_connect c : preserves obs (connect c).
Proof. unfold connect, wallet. frame. case_match; frame. Qed.

Lemma preserves_onSigner signer : preserves obs (onSigner signer).
Proof. unfold onSigner. frame. case_match; frame. Qed.

Lemma preserves_onDOMContentLoaded : preserves obs onDOMContentLoaded.
Proof. unfold onDOMContentLoaded, fetch. frame. Qed.

Lemma preserves_signIn_title p address ens : preserves obs (signIn_title p address ens).
Proof. unfold signIn_title, fetch. frame. Qed.

Lemma preserves_resume k r : preserves obs (resume k r).
Proof.
  destruct k, r; cbn [resume];
    unfold signIn_address, signIn_message, signIn_sign, signIn_response, me_response,
      signIn_title, signIn, wallet, fetch;
    repeat case_match; frame; repeat case_match; frame.
Qed.

Lemma preserves_invoke f e : preserves obs (invoke f e).
Proof.
  destruct f; cbn [invoke];
    auto using preserves_maximize, preserves_restore, preserves_signOut,
      preserves_connect, preserves_save, preserves_enableSave.
Qed.

Lemma run_preserves (m : M unit) s : preserves obs m → obs (run m s) = obs s.
Proof.
  intros Hm. unfold run. specialize (Hm s).
  destruct (m s) as [[?|?] s']; cbn in *; [done|]. by rewrite obs_log.
Qed.

Lemma foldl_preserves {A} (f : State → A → State) (l : list A) s :
  (∀ s' a, obs (f s' a) = obs s') → obs (foldl f s l) = obs s.
Proof.
  intros Hf. revert s. induction l as [|a l IH]; intros s; [done|].
  cbn. by rewrite IH, Hf.
Qed.

(** No turn of the event loop changes the observation. *)
Lemma step_preserves ev s : obs (step ev s) = obs s.
Proof.
  destruct ev; cbn [step].
  - destruct (bound s); [done|]. apply run_preserves, preserves_onDOMContentLoaded.
  - apply foldl_preserves. intros s' p. case_match; [|done].
    apply run_preserves, preserves_invoke.
  - unfold dispatch. rewrite foldl_preserves; [apply obs_document|].
    intros s' p. case_match; [|done]. apply run_preserves, preserves_invoke.
  - apply foldl_preserves. intros s' p. case_match; [|done].
    apply run_preserves, preserves_invoke.
  - apply run_preserves, preserves_onSigner.
  - case_match; [|done]. rewrite run_preserves by apply preserves_resume.
    apply obs_pending.
Qed.

Lemma steps_preserves evs s : obs (steps evs s) = obs s.
Proof. apply foldl_preserves. intros s' ev. apply step_preserves. Qed.

End Frame.

(** ** The hotkey *)

Lemma hotkeys_step ev s : hotkeys (step ev s) = hotkeys s.
Proof. by apply step_preserves. Qed.

Lemma reachable_steps evs s : reachable s → reachable (steps evs s).
Proof.
  revert s. induction evs as [|ev evs IH]; intros s Hs; [done|].
  cbn. apply IH. by constructor.
Qed.

Lemma reachable_hotkeys s : reachable s → hotkeys s = [("mod+s", L_save)].
Proof. induction 1 as [|ev s _ IH]; [done|]. by rewrite hotkeys_step. Qed.

Lemma hotkey_run s :
  hotkeys s = [("mod+s", L_save)] →
  step (Hotkey "mod+s") s = run (save (Some KeyboardEvent)) s.
Proof. intros H. cbn [step]. unfold press. by rewrite H. Qed.

(** Claim C10.  In every state the program can reach, the binding of mod+s
    to [save] is the one made when the module was evaluated; pressing the
    hotkey runs [save], whatever the interface shows and whether or not the
    save button still has its click listener; and on the loaded page, when
    the serialised document is within the bound, this sends the PUT
    /api/save request. *)
Theorem hotkey_always_saves (s : State) :
  reachable s →
  hotkeys s = [("mod+s", L_save)]
  ∧ step (Hotkey "mod+s") s = run (save (Some KeyboardEvent)) s
  ∧ (bound s = true →
     (JS.byteLength (JS.stringify_text (value (document s notepad))) <= 43610)%Z →
     fetches (effects (step (Hotkey "mod+s") s))
     = fetches (effects s) ++ [save_request (value (document s notepad))]).
Proof.
  intros Hs. pose proof (reachable_hotkeys s Hs) as Hk. split_and!; [done|by apply hotkey_run|].
  intros Hb Hle. rewrite hotkey_run, save_run by done. cbn zeta.
  rewrite (proj2 (Z.ltb_ge _ _)) by done. cbn. by rewrite !fetches_app, app_nil_r.
Qed.

Lemma reachable_saved : reachable saved.
Proof.
  unfold saved, saving, typed, signed_in.
  do 3 apply reachable_step. apply reachable_steps. by constructor.
Qed.

Lemma hotkey_always_saves_witness :
  Disconnected anonymous = true ∧ save_enabled saved = false
  ∧ fetches (effects (step (Hotkey "mod+s") saved))
    = fetches (effects saved) ++ [save_request (JS.units "a")].
Proof.
  split_and!; [reflexivity..|].
  apply (hotkey_always_saves saved reachable_saved); [reflexivity|vm_compute; discriminate].
Defined.

(** ** The challenge *)

Lemma signing_app l k : signing (l ++ k) = signing l ++ signing k.
Proof. apply omap_app. Qed.

(** A flow that has just been suspended on a fresh promise is resumed when
    this promise is settled. *)
Lemma settle_suspended id call k r s :
  id = next_promise s →
  step (Settle id r) (suspended call k s) =
    run (resume k r) (set_pending (delete id) (suspended call k s)).
Proof. intros ->. apply settle_pending. cbn. apply lookup_insert_eq. Qed.

Lemma accounts_resumed p account others s :
  account ≠ EmptyString →
  run (resume (signIn_accounts p) (Accounts (account :: others))) s =
    suspended (λ id, Wallet id (lookupAddress p account)) (signIn_lookup p account) s.
Proof.
  intros Ha. cbn [resume]. unfold signIn_address. by rewrite bool_decide_eq_false_2.
Qed.

Lemma lookup_named p account name s :
  run (resume (signIn_lookup p account) (EnsName name)) s =
    suspended (λ id, Fetch id nonce_request)
      (signIn_nonce p account (JS.nullish name EmptyString))
      (set_title (fmap (set_innerText (JS.nullish name EmptyString))) s).
Proof. done. Qed.

Lemma lookup_failed p account reason s :
  run (resume (signIn_lookup p account) (Rejected reason)) s =
    suspended (λ id, Fetch id nonce_request) (signIn_nonce p account EmptyString)
      (set_title (fmap (set_innerText EmptyString)) (log (ConsoleError reason) s)).
Proof. done. Qed.

Lemma nonce_resumed p account ens res s :
  run (resume (signIn_nonce p account ens) (Http res)) s =
    suspended (λ id, Wallet id (getNetwork p))
      (signIn_network p account ens (body_text res) (location_host s)) s.
Proof. done. Qed.

Lemma network_resumed p account ens nonce host chain s :
  run (resume (signIn_network p account ens nonce host) (Network chain)) s =
    let fields :=
      mkSiweMessage host account chain (location_origin s) "1" "SIWE Notepad Example" nonce in
    match new_SiweMessage s fields with
    | Some message =>
        suspended (λ id, Wallet id (signMessage p (prepareMessage message)))
          (signIn_signature message ens) s
    | None => log (Uncaught (SiweError fields)) s
    end.
Proof.
  cbn [resume]. unfold run, signIn_sign, mbind, M_bind, gets. cbn.
  by destruct (new_SiweMessage s _).
Qed.

Lemma signature_resumed message ens sig s :
  run (resume (signIn_signature message ens) (Signature sig)) s =
    suspended (λ id, Fetch id (sign_in_request message ens sig)) signIn_verify s.
Proof. done. Qed.

Lemma calls_app l k : calls (l ++ k) = calls l ++ calls k.
Proof. apply omap_app. Qed.

Ltac listed :=
  cbn; rewrite ?calls_app, ?signing_app, ?uncaught_app, ?fetches_app; cbn;
  rewrite ?app_nil_r, <- ?app_assoc; done.

(** Claim C9.  One sign-in attempt on a provider [p], from the call of
    [signIn] to the request for the signature.  The calls of the attempt
    are, in order and each on its own promise: the accounts asked of [p],
    the ENS lookup of the first account asked of [p], the nonce request to
    the server, the network asked of [p]; the attempt goes on with the
    answers to exactly these promises (the first account non-empty, the
    lookup returning or failing).  The message is then constructed with
    these fields: as domain the host of the document, as uri its origin, as
    address the account [p] listed, as chain id the one [p] answered, as
    version 1, as statement the fixed one and as nonce the body of the nonce
    response of this attempt.  When the siwe library builds the message,
    the one text given to the signer of [p] is the text this message
    prepares, and the same message is then posted to /api/sign_in with the
    signature.  When the library refuses the fields nothing is given to the
    signer and the attempt ends with the library's error. *)
Theorem signIn_challenge (s : State) (p : Provider) (account : string)
    (others : list string) (name : Reply) (res : Response) (chain : Z) (sig : string) :
  account ≠ EmptyString →
  (∃ n, name = EnsName n) ∨ (∃ reason, name = Rejected reason) →
  let n := next_promise s in
  let fields :=
    mkSiweMessage (location_host s) account chain (location_origin s)
                  "1" "SIWE Notepad Example" (body_text res) in
  let asked :=
    steps [Settle n (Accounts (account :: others)); Settle (1 + n) name;
           Settle (2 + n) (Http res); Settle (3 + n) (Network chain)]
          (run (signIn p) s) in
  calls (effects asked) =
    calls (effects s) ++
      [Wallet n (listAccounts p); Wallet (1 + n) (lookupAddress p account);
       Fetch (2 + n) nonce_request; Wallet (3 + n) (getNetwork p)] ++
      match new_SiweMessage s fields with
      | Some message => [Wallet (4 + n) (signMessage p (prepareMessage message))]
      | None => []
      end
  ∧ signing (effects asked) =
      signing (effects s) ++
        match new_SiweMessage s fields with
        | Some message => [(p, prepareMessage message)]
        | None => []
        end
  ∧ uncaught (effects asked) =
      uncaught (effects s) ++
        match new_SiweMessage s fields with
        | Some _ => []
        | None => [SiweError fields]
        end
  ∧ (∀ message, new_SiweMessage s fields = Some message →
     ∃ ens,
       fetches (effects (step (Settle (4 + n) (Signature sig)) asked))
       = fetches (effects s) ++ [nonce_request; sign_in_request message ens sig]).
Proof.
  intros Ha Hname n fields asked. subst n asked.
  unfold steps. cbn [foldl].
  change (run (signIn p) s) with
    (suspended (λ id, Wallet id (listAccounts p)) (signIn_accounts p) s).
  rewrite settle_suspended by reflexivity. rewrite accounts_resumed by done.
  rewrite settle_suspended by reflexivity.
  destruct Hname as [[nm ->]|[reason ->]].
  - rewrite lookup_named.
    rewrite settle_suspended, nonce_resumed by reflexivity.
    rewrite settle_suspended, network_resumed by reflexivity.
    cbn [new_SiweMessage location_origin location_host set_pending set_next_promise
         set_title log suspended].
    fold fields. destruct (new_SiweMessage s fields) as [message|] eqn:Hv.
    + split_and!.
      * listed.
      * listed.
      * listed.
      * intros ? [= <-]. exists (JS.nullish nm EmptyString).
        rewrite settle_suspended, signature_resumed by reflexivity.
        listed.
    + split_and!; [..|done].
      * listed.
      * listed.
      * listed.
  - rewrite lookup_failed.
    rewrite settle_suspended, nonce_resumed by reflexivity.
    rewrite settle_suspended, network_resumed by reflexivity.
    cbn [new_SiweMessage location_origin location_host set_pending set_next_promise
         set_title log suspended].
    fold fields. destruct (new_SiweMessage s fields) as [message|] eqn:Hv.
    + split_and!.
      * listed.
      * listed.
      * listed.
      * intros ? [= <-]. exists EmptyString.
        rewrite settle_suspended, signature_resumed by reflexivity.
        listed.
    + split_and!; [..|done].
      * listed.
      * listed.
      * listed.
Qed.

Lemma signIn_challenge_witness :
  signing
    (effects
       (steps [Settle (next_promise anonymous) (Accounts [example_account]);
               Settle (1 + next_promise anonymous) (EnsName None);
               Settle (2 + next_promise anonymous) (Http (mkResponse 200 example_nonce None));
               Settle (3 + next_promise anonymous) (Network 1)]
              (run (signIn (SignerProvider 7)) anonymous)))
  = signing (effects anonymous) ++
      [(SignerProvider 7,
        prepareMessage
          (mkSiweMessage (location_host anonymous) example_account 1
                         (location_origin anonymous)
                         "1" "SIWE Notepad Example" example_nonce))].
Proof.
  pose proof (signIn_challenge anonymous (SignerProvider 7) example_account []
                (EnsName None) (mkResponse 200 example_nonce None) 1 "0xsig") as H.
  destruct H as (_ & H & _); [discriminate | left; by eexists |].
  exact H.
Defined.

(** ** Promises under interleaving *)


Lemma continues_refl s : continues s s.
Proof. split; [done|by left]. Qed.

Lemma continues_trans s1 s2 s3 : continues s1 s2 → continues s2 s3 → continues s1 s3.
Proof.
  intros [H1 H1'] [H2 H2']. split; [lia|]. intros i.
  destruct (H2' i) as [->|?]; [|right; lia].
  destruct (H1' i) as [->|?]; [by left|right; lia].
Qed.

Lemma continues_same s s' :
  next_promise s' = next_promise s → pending s' = pending s → continues s s'.
Proof. intros Hn Hp. split; [lia|]. intros i. left. by rewrite Hp. Qed.

Lemma continues_suspended call k s : continues s (suspended call k s).
Proof.
  split; [cbn; lia|]. intros i. cbn.
  destruct (decide (i = next_promise s)) as [->|]; [right; lia|].
  left. by rewrite lookup_insert_ne.
Qed.

Lemma adds_ret {A} (a : A) : adds_promises (mret a).
Proof. intros s. apply continues_refl. Qed.

Lemma adds_throw {A} e : adds_promises (throw (A := A) e).
Proof. intros s. apply continues_refl. Qed.

Lemma adds_gets {A} (f : State → A) : adds_promises (gets f).
Proof. intros s. apply continues_refl. Qed.

Lemma adds_modify f :
  (∀ s, next_promise (f s) = next_promise s ∧ pending (f s) = pending s) →
  adds_promises (modify f).
Proof. intros Hf s. by apply continues_same; apply Hf. Qed.

Lemma adds_bind {A B} (m : M A) (f : A → M B) :
  adds_promises m → (∀ a, adds_promises (f a)) → adds_promises (m ≫= f).
Proof.
  intros Hm Hf s. unfold mbind, M_bind. specialize (Hm s).
  destruct (m s) as [[a|e] s']; cbn in *; [|done].
  eapply continues_trans; [done|apply Hf].
Qed.

Lemma adds_when b (m : M unit) : adds_promises m → adds_promises (when b m).
Proof. destruct b; [done|]. intros _. apply adds_ret. Qed.

Lemma adds_element h : adds_promises (element h).
Proof. intros s. unfold element. destruct (bound s); apply continues_refl. Qed.

Lemma adds_update h f : adds_promises (update h f).
Proof. apply adds_bind; [apply adds_element|]. intros _. by apply adds_modify. Qed.

Lemma adds_suspend call k : adds_promises (suspend call k).
Proof. intros s. apply continues_suspended. Qed.

Ltac promises :=
  repeat first
    [ apply adds_when
    | apply adds_update
    | apply adds_suspend
    | apply adds_element
    | apply adds_ret
    | apply adds_throw
    | apply adds_gets
    | apply adds_modify; intros ?; done
    | apply adds_bind; [|intros ?] ].

Lemma adds_invoke f e : adds_promises (invoke f e).
Proof.
  destruct f; cbn [invoke];
    unfold maximize, restore, signOut, connect, save, enableSave, updateTitle,
      updateNotepad, updateUnsavedChanges, fetch, wallet, effect;
    try destruct e; cbn [from_option]; promises; repeat case_match; promises.
Qed.

Lemma adds_resume k r : adds_promises (resume k r).
Proof.
  destruct k, r; cbn [resume];
    unfold signIn_address, signIn_message, signIn_sign, signIn_response, me_response,
      signIn_title, signIn, connectedState, disconnectedState, blockSave, metamask_undefined,
      updateTitle, updateNotepad, updateUnsavedChanges, wallet, fetch, effect;
    repeat case_match; promises; repeat case_match; promises.
Qed.

Lemma adds_onSigner signer : adds_promises (onSigner signer).
Proof.
  unfold onSigner, signIn, wallet, effect. promises. case_match; promises.
Qed.

Lemma adds_onDOMContentLoaded : adds_promises onDOMContentLoaded.
Proof. unfold onDOMContentLoaded, metamask_undefined, fetch. promises. Qed.

Lemma run_continues (m : M unit) s : adds_promises m → continues s (run m s).
Proof.
  intros Hm. unfold run. specialize (Hm s).
  destruct (m s) as [[?|?] s']; cbn in *; [done|].
  eapply continues_trans; [done|]. by apply continues_same.
Qed.

Lemma foldl_continues {A} (f : State → A → State) (l : list A) s :
  (∀ s' a, continues s' (f s' a)) → continues s (foldl f s l).
Proof.
  intros Hf. revert s. induction l as [|a l IH]; intros s; [apply continues_refl|].
  cbn. eapply continues_trans; [apply Hf|apply IH].
Qed.

Lemma step_continues ev s : continues (settled ev s) (step ev s).
Proof.
  destruct ev; cbn [step settled].
  - destruct (bound s); [apply continues_refl|]. apply run_continues, adds_onDOMContentLoaded.
  - apply foldl_continues. intros s' p. case_match; [|apply continues_refl].
    apply run_continues, adds_invoke.
  - unfold dispatch. eapply continues_trans; [|apply foldl_continues].
    + by apply continues_same.
    + intros s' p. case_match; [|apply continues_refl]. apply run_continues, adds_invoke.
  - apply foldl_continues. intros s' p. case_match; [|apply continues_refl].
    apply run_continues, adds_invoke.
  - apply run_continues, adds_onSigner.
  - destruct (pending s !! promise) eqn:Hp.
    + apply run_continues, adds_resume.
    + apply continues_same; [done|]. cbn. by rewrite delete_id.
Qed.

Lemma issued_continues s s' : issued s → continues s s' → issued s'.
Proof.
  intros Hi [Hn Hp] i Hs. destruct (Hp i) as [Heq|?]; [|lia].
  rewrite Heq in Hs. apply Hi in Hs. lia.
Qed.

Lemma issued_settled ev s : issued s → issued (settled ev s).
Proof.
  intros Hi. destruct ev; try done. intros i [k Hk]. cbn in *.
  apply lookup_delete_Some in Hk as [_ Hk]. apply Hi. eauto.
Qed.

Lemma issued_step ev s : issued s → issued (step ev s).
Proof.
  intros Hi. eapply issued_continues; [|apply step_continues]. by apply issued_settled.
Qed.

Lemma issued_suspended call k s : issued s → issued (suspended call k s).
Proof. intros Hi. eapply issued_continues; [done|apply continues_suspended]. Qed.

(** A pending flow is not disturbed by the events that do not settle its
    promise. *)
Lemma step_survives id k ev s :
  issued s → pending s !! id = Some k → (∀ r, ev ≠ Settle id r) →
  pending (step ev s) !! id = Some k.
Proof.
  intros Hi Hp Hev. destruct (step_continues ev s) as [Hn Hc].
  assert (Hd : pending (settled ev s) !! id = Some k).
  { destruct ev; try done. cbn. rewrite lookup_delete_ne; [done|]. intros ->. by eapply Hev. }
  destruct (Hc id) as [->|Hnew]; [done|].
  assert (id < next_promise s) by (apply Hi; eauto).
  replace (next_promise (settled ev s)) with (next_promise s) in Hnew by by destruct ev.
  lia.
Qed.

Lemma steps_survive id k evs s :
  issued s → pending s !! id = Some k → quiet id evs →
  pending (steps evs s) !! id = Some k ∧ issued (steps evs s).
Proof.
  revert s. induction evs as [|ev evs IH]; intros s Hi Hp Hq; [done|].
  cbn. apply IH.
  - by apply issued_step.
  - apply step_survives; [done..|]. intros r ->. apply (Hq r). by left.
  - intros r Hr. apply (Hq r). by right.
Qed.



(** The location of the document does not change. *)
Lemma location_host_steps evs s : location_host (steps evs s) = location_host s.
Proof. by apply steps_preserves. Qed.

Lemma location_host_step ev s : location_host (step ev s) = location_host s.
Proof. by apply step_preserves. Qed.

Lemma location_origin_steps evs s : location_origin (steps evs s) = location_origin s.
Proof. by apply steps_preserves. Qed.

Lemma location_origin_step ev s : location_origin (step ev s) = location_origin s.
Proof. by apply step_preserves. Qed.


Lemma waits_suspended call k s :
  issued s → waits (suspended call k s) (next_promise s) k.
Proof.
  intros Hi. split; [cbn; apply lookup_insert_eq|by apply issued_suspended].
Qed.

Lemma waits_steps evs s id k : waits s id k → quiet id evs → waits (steps evs s) id k.
Proof. intros [Hp Hi] Hq. by apply steps_survive. Qed.

(** Resuming a waiting flow: the promise leaves the table, the flow runs
    on, and when it suspends again it waits on the next promise. *)
Lemma waits_resumed s n k r call k' s' :
  waits s n k →
  run (resume k r) (set_pending (delete n) s) = suspended call k' s' →
  next_promise s' = next_promise s → pending s' = delete n (pending s) →
  step (Settle n r) s = suspended call k' s'
  ∧ waits (step (Settle n r) s) (next_promise s) k'.
Proof.
  intros [Hp Hi] Hrun Hn Hpf.
  rewrite (settle_pending _ _ _ _ Hp), Hrun. split; [done|].
  rewrite <- Hn. apply waits_suspended.
  intros i. rewrite Hn, Hpf. apply (issued_settled (Settle n r) s Hi).
Qed.

Lemma accounts_stage s n p account others :
  waits s n (signIn_accounts p) → account ≠ EmptyString →
  effects (step (Settle n (Accounts (account :: others))) s) =
    effects s ++ [Wallet (next_promise s) (lookupAddress p account)]
  ∧ waits (step (Settle n (Accounts (account :: others))) s)
          (next_promise s) (signIn_lookup p account).
Proof.
  intros Hw Ha.
  edestruct (waits_resumed s n _ (Accounts (account :: others))
               (λ id, Wallet id (lookupAddress p account)) (signIn_lookup p account)
               (set_pending (delete n) s) Hw) as [-> Hw']; [|done..|by split].
  by apply accounts_resumed.
Qed.

Lemma lookup_stage s n p account name :
  waits s n (signIn_lookup p account) →
  (∃ found, name = EnsName found) ∨ (∃ reason, name = Rejected reason) →
  calls (effects (step (Settle n name) s)) =
    calls (effects s) ++ [Fetch (next_promise s) nonce_request]
  ∧ ∃ ens,
      waits (step (Settle n name) s) (next_promise s) (signIn_nonce p account ens).
Proof.
  intros Hw [[found ->]|[reason ->]].
  - edestruct (waits_resumed s n _ (EnsName found)
                 (λ id, Fetch id nonce_request)
                 (signIn_nonce p account (JS.nullish found EmptyString))
                 (set_title (fmap (set_innerText (JS.nullish found EmptyString)))
                    (set_pending (delete n) s)) Hw) as [Heq Hw']; [|done..|].
    { apply lookup_named. }
    split; [|by eexists]. rewrite Heq. cbn. rewrite calls_app. done.
  - edestruct (waits_resumed s n _ (Rejected reason)
                 (λ id, Fetch id nonce_request)
                 (signIn_nonce p account EmptyString)
                 (set_title (fmap (set_innerText EmptyString))
                    (log (ConsoleError reason) (set_pending (delete n) s))) Hw)
      as [Heq Hw']; [|done..|].
    { apply lookup_failed. }
    split; [|by eexists]. rewrite Heq. cbn. rewrite !calls_app. cbn.
    by rewrite app_nil_r.
Qed.

Lemma nonce_stage s n p account ens res :
  waits s n (signIn_nonce p account ens) →
  effects (step (Settle n (Http res)) s) =
    effects s ++ [Wallet (next_promise s) (getNetwork p)]
  ∧ waits (step (Settle n (Http res)) s) (next_promise s)
          (signIn_network p account ens (body_text res) (location_host s)).
Proof.
  intros Hw.
  edestruct (waits_resumed s n _ (Http res)
               (λ id, Wallet id (getNetwork p))
               (signIn_network p account ens (body_text res) (location_host s))
               (set_pending (delete n) s) Hw) as [-> Hw']; [|done..|by split].
  by rewrite nonce_resumed.
Qed.

(** The library is asked when the network is known: it builds the
    message and the signer is asked, or it throws and the attempt ends. *)
Lemma network_stage s n p account ens nonce host chain :
  waits s n (signIn_network p account ens nonce host) →
  let fields :=
    mkSiweMessage host account chain (location_origin s) "1" "SIWE Notepad Example" nonce in
  match new_SiweMessage s fields with
  | Some message =>
      effects (step (Settle n (Network chain)) s) =
        effects s ++ [Wallet (next_promise s) (signMessage p (prepareMessage message))]
      ∧ waits (step (Settle n (Network chain)) s) (next_promise s)
              (signIn_signature message ens)
  | None =>
      effects (step (Settle n (Network chain)) s) =
        effects s ++ [Uncaught (SiweError fields)]
  end.
Proof.
  intros Hw fields.
  pose proof (network_resumed p account ens nonce host chain (set_pending (delete n) s))
    as Hrun.
  cbn [new_SiweMessage location_origin set_pending] in Hrun. fold fields in Hrun.
  destruct (new_SiweMessage s fields) as [message|].
  - edestruct (waits_resumed s n _ (Network chain) _ _ _ Hw Hrun) as [-> Hw'];
      [done..|by split].
  - destruct Hw as [Hp _]. by rewrite (settle_pending _ _ _ _ Hp), Hrun.
Qed.

Lemma signature_stage s n message ens sig :
  waits s n (signIn_signature message ens) →
  effects (step (Settle n (Signature sig)) s) =
    effects s ++ [Fetch (next_promise s) (sign_in_request message ens sig)]
  ∧ waits (step (Settle n (Signature sig)) s) (next_promise s) signIn_verify.
Proof.
  intros Hw.
  edestruct (waits_resumed s n _ (Signature sig)
               (λ id, Fetch id (sign_in_request message ens sig)) signIn_verify
               (set_pending (delete n) s) Hw) as [-> Hw']; [|done..|by split].
  apply signature_resumed.
Qed.

(** The library does not change. *)
Lemma new_SiweMessage_steps evs s : new_SiweMessage (steps evs s) = new_SiweMessage s.
Proof. by apply steps_preserves. Qed.

Lemma new_SiweMessage_step ev s : new_SiweMessage (step ev s) = new_SiweMessage s.
Proof. by apply step_preserves. Qed.

(** Property X16.  A sign-in attempt on a provider [p] while other events
    are handled between its stages: the user types, requests of other flows
    are answered, the signer changes.  Each stage goes on with the answer to
    the promise of the stage before and asks its question on the next
    promise: [signIn] asks [p] for the accounts; the accounts answered, [p]
    is asked to look up the first account; the lookup settled, the nonce is
    requested from the server; the nonce answered, [p] is asked for the
    network; the network answered, the siwe library is given the host and
    origin of the document, that account, that chain id and that nonce, and
    either [p] is asked to sign the text of the message it builds or the
    library's error ends the attempt. *)
Theorem signIn_challenge_interleaved (s : State) (p : Provider) (account : string)
    (others : list string) (name : Reply) (res : Response) (chain : Z)
    (evs1 evs2 evs3 evs4 : list Event) :
  issued s →
  account ≠ EmptyString →
  (∃ found, name = EnsName found) ∨ (∃ reason, name = Rejected reason) →
  let s0 := run (signIn p) s in
  let s1 := steps evs1 s0 in
  let s2 := steps evs2 (step (Settle (next_promise s) (Accounts (account :: others))) s1) in
  let s3 := steps evs3 (step (Settle (next_promise s1) name) s2) in
  let s4 := steps evs4 (step (Settle (next_promise s2) (Http res)) s3) in
  let fields :=
    mkSiweMessage (location_host s) account chain (location_origin s)
                  "1" "SIWE Notepad Example" (body_text res) in
  quiet (next_promise s) evs1 → quiet (next_promise s1) evs2 →
  quiet (next_promise s2) evs3 → quiet (next_promise s3) evs4 →
  effects s0 = effects s ++ [Wallet (next_promise s) (listAccounts p)]
  ∧ effects (step (Settle (next_promise s) (Accounts (account :: others))) s1) =
      effects s1 ++ [Wallet (next_promise s1) (lookupAddress p account)]
  ∧ calls (effects (step (Settle (next_promise s1) name) s2)) =
      calls (effects s2) ++ [Fetch (next_promise s2) nonce_request]
  ∧ effects (step (Settle (next_promise s2) (Http res)) s3) =
      effects s3 ++ [Wallet (next_promise s3) (getNetwork p)]
  ∧ effects (step (Settle (next_promise s3) (Network chain)) s4) =
      effects s4 ++
        [match new_SiweMessage s fields with
         | Some message => Wallet (next_promise s4) (signMessage p (prepareMessage message))
         | None => Uncaught (SiweError fields)
         end].
Proof.
  intros Hi Ha Hname s0 s1 s2 s3 s4 fields Hq1 Hq2 Hq3 Hq4.
  assert (W1 : waits s1 (next_promise s) (signIn_accounts p)).
  { apply waits_steps; [|done]. by apply (waits_suspended (λ id, Wallet id (listAccounts p))). }
  destruct (accounts_stage _ _ _ _ others W1 Ha) as [E1 W1'].
  pose proof (waits_steps evs2 _ _ _ W1' Hq2) as W2. fold s2 in W2.
  destruct (lookup_stage _ _ _ _ name W2 Hname) as [E2 [ens W2']].
  pose proof (waits_steps evs3 _ _ _ W2' Hq3) as W3. fold s3 in W3.
  destruct (nonce_stage _ _ _ _ _ res W3) as [E3 W3'].
  pose proof (waits_steps evs4 _ _ _ W3' Hq4) as W4. fold s4 in W4.
  pose proof (network_stage _ _ _ _ _ _ _ chain W4) as E4. cbn zeta in E4.
  assert (Hh : location_host s3 = location_host s).
  { subst s3 s2 s1 s0.
    repeat first [rewrite location_host_steps | rewrite location_host_step]. reflexivity. }
  assert (Ho : location_origin s4 = location_origin s).
  { subst s4 s3 s2 s1 s0.
    repeat first [rewrite location_origin_steps | rewrite location_origin_step]. reflexivity. }
  assert (Hv : new_SiweMessage s4 = new_SiweMessage s).
  { subst s4 s3 s2 s1 s0.
    repeat first [rewrite new_SiweMessage_steps | rewrite new_SiweMessage_step]. reflexivity. }
  rewrite Hh, Ho, Hv in E4. fold fields in E4.
  split_and!; [done..|].
  destruct (new_SiweMessage s fields); [by destruct E4|done].
Qed.

Lemma reachable_issued s : reachable s → issued s.
Proof.
  induction 1 as [|ev s _ IH]; [|by apply issued_step].
  intros i [k Hk]. cbn in Hk. by rewrite lookup_empty in Hk.
Qed.

(** ** Invariants of the event loop *)

Section Maintains.
Context (I : State → Prop).

Lemma maintains_ret {A} (a : A) : maintains I (mret a).
Proof. by intros s. Qed.

Lemma maintains_throw {A} e : maintains I (throw (A := A) e).
Proof. by intros s. Qed.

Lemma maintains_gets {A} (f : State → A) : maintains I (gets f).
Proof. by intros s. Qed.

Lemma maintains_modify f : (∀ s, I s → I (f s)) → maintains I (modify f).
Proof. intros Hf s. apply Hf. Qed.

Lemma maintains_bind {A B} (m : M A) (f : A → M B) :
  maintains I m → (∀ a, maintains I (f a)) → maintains I (m ≫= f).
Proof.
  intros Hm Hf s Hs. unfold mbind, M_bind. specialize (Hm s Hs).
  destruct (m s) as [[a|e] s']; cbn in *; [by apply Hf|done].
Qed.

Lemma maintains_when b (m : M unit) : maintains I m → maintains I (when b m).
Proof. destruct b; [done|]. intros _. apply maintains_ret. Qed.

Lemma maintains_element h : maintains I (element h).
Proof. intros s. unfold element. by destruct (bound s). Qed.

Lemma maintains_update h f :
  (∀ s, bound s = true → I s → I (set_document (alter f h) s)) →
  maintains I (update h f).
Proof.
  intros Hf s Hs. unfold update, element, mbind, M_bind.
  destruct (bound s) eqn:Hb; [by apply Hf|done].
Qed.

Hypothesis I_uncaught : ∀ e s, I s → I (log (Uncaught e) s).

Lemma run_maintains (m : M unit) s : maintains I m → I s → I (run m s).
Proof.
  intros Hm Hs. unfold run. specialize (Hm s Hs).
  destruct (m s) as [[?|?] s']; cbn in *; [done|]. by apply I_uncaught.
Qed.

Lemma foldl_maintains {A} (f : State → A → State) (l : list A) s :
  (∀ s' a, I s' → I (f s' a)) → I s → I (foldl f s l).
Proof.
  intros Hf. revert s. induction l as [|a l IH]; intros s Hs; [done|].
  cbn. by apply IH, Hf.
Qed.

Hypothesis I_typed : ∀ v s, I s → I (set_document (alter (set_value v) notepad) s).
Hypothesis I_settled : ∀ id s, I s → I (set_pending (delete id) s).
Hypothesis I_invoke : ∀ f e, maintains I (invoke f e).
Hypothesis I_resume : ∀ k r, maintains I (resume k r).
Hypothesis I_onSigner : ∀ signer, maintains I (onSigner signer).
Hypothesis I_load : ∀ s, bound s = false → I s → I (run onDOMContentLoaded s).

Lemma step_maintains ev s : I s → I (step ev s).
Proof.
  intros Hs. destruct ev; cbn [step].
  - destruct (bound s) eqn:Hb; [done|]. by apply I_load.
  - apply foldl_maintains; [|done]. intros s' p Hs'. case_match; [|done].
    by apply run_maintains.
  - apply foldl_maintains; [|by apply I_typed]. intros s' p Hs'. case_match; [|done].
    by apply run_maintains.
  - apply foldl_maintains; [|done]. intros s' p Hs'. case_match; [|done].
    by apply run_maintains.
  - by apply run_maintains.
  - case_match; [|done]. apply run_maintains; [done|]. by apply I_settled.
Qed.

End Maintains.

Ltac maintain side :=
  repeat first
    [ apply maintains_when
    | apply maintains_update; side
    | apply maintains_element
    | apply maintains_ret
    | apply maintains_throw
    | apply maintains_gets
    | apply maintains_modify; side
    | apply maintains_bind; [|intros ?] ].

Ltac rewire_update :=
  let s := fresh "s" in
  let Hb := fresh "Hb" in
  let H := fresh "H" in
  let h := fresh "h" in
  intros s Hb H h;
  unfold wired in H;
  cbn [bound document set_document] in *;
  rewrite Hb in *;
  destruct h; unfold listens; at_handle;
  cbn [listeners set_listeners set_classList set_attributes set_innerText set_value
       set_ariaLabel set_style];
  rewrite ?H; cbn [wiring];
  try reflexivity;
  repeat match goal with
         | |- context [listens ?a ?b ?c] => destruct (listens a b c)
         end;
  reflexivity.

Ltac rewire := first [ solve [ let H := fresh in intros ? H; exact H ] | rewire_update ].

Lemma wired_blockSave : maintains wired blockSave.
Proof. unfold blockSave, updateUnsavedChanges. maintain rewire. Qed.

Lemma maximize_run s :
  bound s = true →
  maximize s =
    (Ok tt,
     set_document
       (alter (set_style "height" "91.7vh") notepad
        ∘ alter (set_style "width" "99.7vw") notepad
        ∘ alter (set_ariaLabel "Restore") toggleSize
        ∘ alter (set_listeners (listener_add "click" L_restore)) toggleSize
        ∘ alter (set_listeners (listener_remove "click" L_maximize)) toggleSize) s).
Proof. intros Hb. destruct s; cbn in *; subst. reflexivity. Qed.

Lemma restore_run s :
  bound s = true →
  restore s =
    (Ok tt,
     set_document
       (alter (set_style "height" "320px") notepad
        ∘ alter (set_style "width" "460px") notepad
        ∘ alter (set_ariaLabel "Maximize") toggleSize
        ∘ alter (set_listeners (listener_add "click" L_maximize)) toggleSize
        ∘ alter (set_listeners (listener_remove "click" L_restore)) toggleSize) s).
Proof. intros Hb. destruct s; cbn in *; subst. reflexivity. Qed.

Lemma unbound_throws h f (k : unit → M unit) s :
  bound s = false → (update h f ≫= k) s = (Throw (TypeError h), s).
Proof. intros Hb. unfold update, element, mbind, M_bind. by rewrite Hb. Qed.

Lemma wired_maximize : maintains wired maximize.
Proof.
  intros s H. destruct (bound s) eqn:Hb.
  - rewrite maximize_run by done. cbn [snd]. revert s Hb H. unfold compose. rewire_update.
  - unfold maximize. by rewrite unbound_throws.
Qed.

Lemma wired_restore : maintains wired restore.
Proof.
  intros s H. destruct (bound s) eqn:Hb.
  - rewrite restore_run by done. cbn [snd]. revert s Hb H. unfold compose. rewire_update.
  - unfold restore. by rewrite unbound_throws.
Qed.

Lemma wired_invoke f e : maintains wired (invoke f e).
Proof.
  destruct f; cbn [invoke].
  - apply wired_maximize.
  - apply wired_restore.
  - unfold signOut, updateTitle, updateNotepad, fetch, suspend. maintain rewire.
  - unfold connect, wallet, suspend, effect. maintain rewire. case_match; maintain rewire.
  - unfold save, fetch, suspend, effect. cbn [from_option]. maintain rewire.
    case_match; maintain rewire.
  - unfold enableSave, updateUnsavedChanges. maintain rewire.
Qed.

Lemma wired_resume k r : maintains wired (resume k r).
Proof.
  destruct k, r; cbn [resume];
    unfold signIn_address, signIn_message, signIn_sign, signIn_response, me_response,
      signIn_title, signIn, connectedState, disconnectedState, blockSave, metamask_undefined,
      updateTitle, updateNotepad, updateUnsavedChanges, wallet, fetch, suspend, effect;
    repeat case_match; maintain rewire; repeat case_match; maintain rewire.
Qed.

Lemma wired_onSigner signer : maintains wired (onSigner signer).
Proof.
  unfold onSigner, signIn, wallet, suspend, effect. maintain rewire. case_match; maintain rewire.
Qed.

Lemma wired_load s : bound s = false → wired s → wired (run onDOMContentLoaded s).
Proof.
  intros Hb H h. rewrite run_onDOMContentLoaded. unfold wired in H. rewrite Hb in H.
  cbn [wiring] in H. cbn [bound document set_document set_bound]. unfold compose.
  destruct h; unfold listens; at_handle;
    cbn [listeners set_listeners set_classList set_attributes set_innerText set_value
         set_ariaLabel set_style document set_document set_bound set_next_promise
         set_pending log];
    rewrite ?H; reflexivity.
Qed.

Lemma wired_step ev s : wired s → wired (step ev s).
Proof.
  apply step_maintains.
  - by intros e s' H.
  - intros v s' H h. specialize (H h). cbn [bound document set_document].
    destruct h; unfold listens in *; at_handle; apply H.
  - by intros id s' H.
  - apply wired_invoke.
  - apply wired_resume.
  - apply wired_onSigner.
  - apply wired_load.
Qed.

Lemma reachable_wired s : reachable s → wired s.
Proof.
  induction 1 as [mm host origin siwe page ttl Hpage|ev s _ IH]; [|by apply wired_step].
  intros h. cbn. apply Hpage.
Qed.

(** ** Saving: edges *)

(** Property X1.  The size gate of [save] in terms of the text: a text of
    more than 43,599 code units is always rejected with the alert and
    nothing is sent; a text of printable ASCII characters without quote or
    backslash of at most 43,599 characters is always sent. *)
Theorem save_text_bounds (e : option UIEvent) (s : State) :
  bound s = true →
  let D := value (document s notepad) in
  let s' := run (save e) s in
  ((43599 < Z.of_nat (length D))%Z →
     fetches (effects s') = fetches (effects s)
     ∧ alerts (effects s') = alerts (effects s) ++ [too_big])
  ∧ (Forall JS.plain D → (Z.of_nat (length D) <= 43599)%Z →
     fetches (effects s') = fetches (effects s) ++ [save_request D]
     ∧ alerts (effects s') = alerts (effects s)).
Proof.
  intros Hb D s'. split.
  - by apply save_rejects_long_text.
  - by apply save_sends_plain_text.
Qed.

Lemma save_text_bounds_witness :
  fetches (effects (run (save (Some MouseEvent)) (typed (JS.units "hi"))))
  = fetches (effects (typed (JS.units "hi"))) ++ [save_request (JS.units "hi")]
  ∧ alerts (effects (run (save (Some MouseEvent)) (typed (JS.units "hi"))))
    = alerts (effects (typed (JS.units "hi"))).
Proof.
  apply (save_text_bounds (Some MouseEvent) (typed (JS.units "hi")) eq_refl).
  - repeat constructor; vm_compute; congruence.
  - vm_compute. discriminate.
Defined.

Lemma save_unbound e s :
  bound s = false →
  run (save e) s = log (Uncaught (TypeError notepad)) (prevented e s).
Proof.
  intros Hb. destruct s, e; cbn in *; subst; reflexivity.
Qed.

(** Property X2.  [save] called before the element variables are bound
    (the hotkey is bound when the module is evaluated, the variables on
    DOMContentLoaded): the default of the event, when there is one, is
    prevented first, and then reading the notepad raises a TypeError.  These
    are the only effects: nothing is sent, nothing is alerted, and the
    screen and the pending promises are as before. *)
Theorem save_before_load (e : option UIEvent) (s : State) :
  bound s = false →
  let s' := run (save e) s in
  effects s' =
    effects s ++ match e with Some ev => [PreventDefault ev] | None => [] end
              ++ [Uncaught (TypeError notepad)]
  ∧ fetches (effects s') = fetches (effects s)
  ∧ alerts (effects s') = alerts (effects s)
  ∧ uncaught (effects s') = uncaught (effects s) ++ [TypeError notepad]
  ∧ pending s' = pending s
  ∧ next_promise s' = next_promise s
  ∧ screen s' = screen s.
Proof.
  intros Hb s'. subst s'. rewrite save_unbound by done.
  destruct e; cbn; rewrite ?fetches_app, ?alerts_app, ?uncaught_app; cbn;
    by rewrite ?app_nil_r, <- ?app_assoc.
Qed.

Lemma save_before_load_witness :
  effects (run (save (Some KeyboardEvent)) fresh)
  = effects fresh ++ [PreventDefault KeyboardEvent] ++ [Uncaught (TypeError notepad)].
Proof. apply (save_before_load (Some KeyboardEvent) fresh eq_refl). Defined.

(** Property X3.  Calling [save] never changes the screen, the provider
    or the promises of other flows, whether the text is sent, rejected for
    its size, or the page is not loaded: the dirty mark stays until the
    response arrives. *)
Theorem save_keeps_screen (e : option UIEvent) (s : State) :
  screen (run (save e) s) = screen s
  ∧ wagmiProvider (run (save e) s) = wagmiProvider s
  ∧ (∀ i, i ≠ next_promise s → pending (run (save e) s) !! i = pending s !! i).
Proof.
  destruct (bound s) eqn:Hb.
  - rewrite save_run by done. cbn zeta. case_match; destruct e; cbn; split_and!; try done.
    all: intros i Hi; by rewrite lookup_insert_ne.
  - rewrite save_unbound by done. by destruct e.
Qed.

(** ** What the listeners of a reachable page do *)

Lemma dispatch_nil h type e s :
  listeners (document s h) = [] → dispatch h type e s = s.
Proof. intros H. unfold dispatch. by rewrite H. Qed.

Lemma dispatch_one h type f e s :
  listeners (document s h) = [(type, f)] → dispatch h type e s = run (invoke f e) s.
Proof.
  intros H. unfold dispatch. rewrite H. cbn [foldl fst snd]. rewrite H.
  by rewrite !bool_decide_eq_true_2 by (done || by left).
Qed.

Lemma wired_bound s h :
  wired s → bound s = true →
  listeners (document s h) =
    wiring true (listens "click" L_save (document s saveButton))
           (listens "click" L_restore (document s toggleSize))
           (listens "click" L_signOut (document s closeButton)) h.
Proof. intros H Hb. by rewrite H, Hb. Qed.

Lemma wired_unbound s h : wired s → bound s = false → listeners (document s h) = [].
Proof. intros H Hb. by rewrite H, Hb. Qed.

(** Property X4.  On every reachable page a click on the save button runs
    [save] exactly once when the save affordance is enabled, however often
    [enableSave] has registered the listener, and does nothing when the
    listener has been removed: a click never sends more than one request. *)
Theorem save_click_runs_save_once (s : State) :
  reachable s →
  let s' := step (Click saveButton) s in
  (save_enabled s = true → bound s = true ∧ s' = run (save (Some MouseEvent)) s)
  ∧ (listens "click" L_save (document s saveButton) = false → s' = s)
  ∧ length (fetches (effects s')) ≤ S (length (fetches (effects s))).
Proof.
  intros Hr s'. subst s'. apply reachable_wired in Hr.
  assert (Hcases : listens "click" L_save (document s saveButton) = false
                   ∧ step (Click saveButton) s = s
                 ∨ listens "click" L_save (document s saveButton) = true
                   ∧ bound s = true
                   ∧ step (Click saveButton) s = run (save (Some MouseEvent)) s).
  { destruct (bound s) eqn:Hb.
    - pose proof (wired_bound s saveButton Hr Hb) as Hl. cbn [wiring] in Hl.
      destruct (listens "click" L_save (document s saveButton)).
      + right. split_and!; try done. by apply (dispatch_one saveButton "click" L_save).
      + left. split; [done|]. by apply dispatch_nil.
    - pose proof (wired_unbound s saveButton Hr Hb) as Hl. left. split.
      + unfold listens. rewrite Hl. done.
      + by apply dispatch_nil. }
  split_and!.
  - unfold save_enabled. intros [Hon _]%andb_prop.
    destruct Hcases as [[Hoff _]|(_ & Hb & ->)]; [congruence|done].
  - intros Hoff. destruct Hcases as [[_ ->]|(Hon & _)]; [done|congruence].
  - destruct Hcases as [[_ ->]|(_ & Hb & ->)]; [lia|].
    rewrite save_run by done. cbn zeta.
    case_match; cbn; rewrite !fetches_app, !length_app; cbn; lia.
Qed.

Lemma save_click_runs_save_once_witness :
  step (Click saveButton) saved = saved.
Proof.
  apply (save_click_runs_save_once saved reachable_saved). reflexivity.
Defined.

(** Property X5.  On every reachable loaded page an input event, in any
    state of the interface, leaves the document dirty and the save
    affordance enabled with exactly one [save] listener on the button; the
    notepad holds the typed text and nothing is sent. *)
Theorem edit_marks_dirty (s : State) (v : JS.jsstring) :
  reachable s → bound s = true →
  let s' := step (Input v) s in
  dirty s' = true ∧ save_enabled s' = true
  ∧ value (document s' notepad) = v
  ∧ listeners (document s' saveButton) = [("click", L_save)]
  ∧ effects s' = effects s.
Proof.
  intros Hr Hb s'. subst s'. apply reachable_wired in Hr.
  pose proof (wired_bound s notepad Hr Hb) as Hn. cbn [wiring] in Hn.
  pose proof (wired_bound s saveButton Hr Hb) as Hs. cbn [wiring] in Hs.
  rewrite input_run by done.
  unfold dirty, save_enabled, disabled, listens. cbn. at_handle. cbn.
  autorewrite with dom. rewrite Hs. split_and!; try done.
  by destruct (listens "click" L_save (document s saveButton)).
Qed.

Lemma edit_marks_dirty_witness :
  dirty (step (Input (JS.units "b")) saved) = true.
Proof. apply (edit_marks_dirty saved (JS.units "b") reachable_saved eq_refl). Defined.

(** ** The size toggle *)

(** Property X6.  On every reachable loaded page the size toggle carries
    exactly one listener, [maximize] or [restore], and a click on it runs
    that one function once. *)
Theorem toggle_has_one_listener (s : State) :
  reachable s → bound s = true →
  (listeners (document s toggleSize) = [("click", L_maximize)]
   ∧ step (Click toggleSize) s = run maximize s)
  ∨ (listeners (document s toggleSize) = [("click", L_restore)]
     ∧ step (Click toggleSize) s = run restore s).
Proof.
  intros Hr Hb. apply reachable_wired in Hr.
  pose proof (wired_bound s toggleSize Hr Hb) as Hl. cbn [wiring] in Hl.
  destruct (listens "click" L_restore (document s toggleSize)); [right|left];
    (split; [done|]).
  - by apply (dispatch_one toggleSize "click" L_restore).
  - by apply (dispatch_one toggleSize "click" L_maximize).
Qed.

Lemma toggle_has_one_listener_witness :
  (listeners (document signed_in toggleSize) = [("click", L_maximize)]
   ∧ step (Click toggleSize) signed_in = run maximize signed_in)
  ∨ (listeners (document signed_in toggleSize) = [("click", L_restore)]
     ∧ step (Click toggleSize) signed_in = run restore signed_in).
Proof.
  apply (toggle_has_one_listener signed_in); [|reflexivity].
  unfold signed_in. apply reachable_steps. by constructor.
Defined.

Lemma run_maximize s :
  bound s = true →
  run maximize s =
    set_document
      (alter (set_style "height" "91.7vh") notepad
       ∘ alter (set_style "width" "99.7vw") notepad
       ∘ alter (set_ariaLabel "Restore") toggleSize
       ∘ alter (set_listeners (listener_add "click" L_restore)) toggleSize
       ∘ alter (set_listeners (listener_remove "click" L_maximize)) toggleSize) s.
Proof. intros Hb. unfold run. by rewrite maximize_run. Qed.

Lemma run_restore s :
  bound s = true →
  run restore s =
    set_document
      (alter (set_style "height" "320px") notepad
       ∘ alter (set_style "width" "460px") notepad
       ∘ alter (set_ariaLabel "Maximize") toggleSize
       ∘ alter (set_listeners (listener_add "click" L_maximize)) toggleSize
       ∘ alter (set_listeners (listener_remove "click" L_restore)) toggleSize) s.
Proof. intros Hb. unfold run. by rewrite restore_run. Qed.

Lemma attr_get_set_ne n m v l : n ≠ m → attr_get n (attr_set m v l) = attr_get n l.
Proof.
  intros Hne. induction l as [|[k w] l IH].
  - change (attr_set m v []) with [(m, v)]. cbn. by rewrite bool_decide_eq_false_2.
  - change (attr_set m v ((k, w) :: l))
      with (if bool_decide (k = m) then (m, v) :: l else (k, w) :: attr_set m v l).
    case_bool_decide as Hk; cbn.
    + subst k. by rewrite !bool_decide_eq_false_2 by done.
    + case_bool_decide; [done|apply IH].
Qed.

(** Property X7.  Two clicks on the size toggle: the first sets the
    notepad to 99.7vw by 91.7vh, labels the toggle Restore and swaps the
    listener; the second sets 460px by 320px, labels it Maximize and swaps
    the listener back.  The text of the notepad is untouched and nothing is
    sent. *)
Theorem toggle_round_trip (s : State) :
  reachable s → bound s = true →
  listeners (document s toggleSize) = [("click", L_maximize)] →
  let big := step (Click toggleSize) s in
  let back := step (Click toggleSize) big in
  attr_get "width" (style (document big notepad)) = Some "99.7vw"
  ∧ attr_get "height" (style (document big notepad)) = Some "91.7vh"
  ∧ ariaLabel (document big toggleSize) = Some "Restore"
  ∧ listeners (document big toggleSize) = [("click", L_restore)]
  ∧ attr_get "width" (style (document back notepad)) = Some "460px"
  ∧ attr_get "height" (style (document back notepad)) = Some "320px"
  ∧ ariaLabel (document back toggleSize) = Some "Maximize"
  ∧ listeners (document back toggleSize) = [("click", L_maximize)]
  ∧ value (document back notepad) = value (document s notepad)
  ∧ effects back = effects s.
Proof.
  intros Hr Hb Hl big back.
  assert (Hbig : big = run maximize s).
  { subst big. by apply (dispatch_one toggleSize "click" L_maximize). }
  assert (Hlb : listeners (document big toggleSize) = [("click", L_restore)]).
  { rewrite Hbig, run_maximize by done. cbn. at_handle. cbn. by rewrite Hl. }
  assert (Hbb : bound big = true) by (by rewrite Hbig, run_maximize).
  assert (Hback : back = run restore big).
  { subst back. by apply (dispatch_one toggleSize "click" L_restore). }
  rewrite Hback, run_restore by done. rewrite Hlb. clear Hlb Hbb Hback. subst back.
  rewrite Hbig, run_maximize by done.
  cbn. at_handle. cbn. rewrite Hl.
  repeat first [rewrite attr_get_set | rewrite attr_get_set_ne by done].
  split_and!; reflexivity.
Qed.

Lemma toggle_round_trip_witness :
  effects (step (Click toggleSize) (step (Click toggleSize) signed_in)) = effects signed_in.
Proof.
  apply (toggle_round_trip signed_in); [|reflexivity..].
  unfold signed_in. apply reachable_steps. by constructor.
Defined.

(** ** Connecting *)

(** Property X8.  On every reachable loaded page the walletconnect button
    opens the Web3Modal and does nothing else; the metamask button asks the
    injected provider for the accounts when there is one, and opens the
    modal as well when there is none. *)
Theorem connect_buttons (s : State) :
  reachable s → bound s = true →
  let n := next_promise s in
  let modal := step (Click walletConnectButton) s in
  let injected := step (Click metamaskButton) s in
  effects modal = effects s ++ [OpenModal]
  ∧ pending modal = pending s ∧ screen modal = screen s
  ∧ (JS.to_boolean (metamask s) = false →
     effects injected = effects s ++ [OpenModal] ∧ pending injected = pending s)
  ∧ (JS.to_boolean (metamask s) = true →
     effects injected = effects s ++ [Wallet n (eth_requestAccounts (metamask s))]
     ∧ pending injected !! n = Some (connect_requested (metamask s))
     ∧ wagmiProvider injected = wagmiProvider s).
Proof.
  intros Hr Hb n modal injected. apply reachable_wired in Hr.
  pose proof (wired_bound s walletConnectButton Hr Hb) as Hw.
  pose proof (wired_bound s metamaskButton Hr Hb) as Hm. cbn [wiring] in *.
  subst modal injected. cbn [step].
  rewrite (dispatch_one _ _ _ _ _ Hw), (dispatch_one _ _ _ _ _ Hm).
  cbn [invoke]. unfold run, connect, mbind, M_bind, gets. cbn.
  split_and!; try done.
  - intros ->. done.
  - intros ->. cbn. split_and!; try done. apply lookup_insert_eq.
Qed.

Lemma connect_buttons_witness :
  effects (step (Click metamaskButton) anonymous) = effects anonymous ++ [OpenModal].
Proof.
  refine (proj1 (proj1 (proj2 (proj2 (proj2 (connect_buttons anonymous _ eq_refl)))) eq_refl)).
  unfold anonymous. apply reachable_steps. by constructor.
Defined.

(** Property X9.  The answer to the account request of [connect]: when
    the user grants it, the provider built on the injected one is recorded
    and a sign-in is started on it; when the user refuses, no provider is
    recorded, no sign-in is started and the screen is unchanged; the
    rejection is reported as unhandled. *)
Theorem connect_answer (s : State) (id : nat) (mm : JS.value) :
  pending s !! id = Some (connect_requested mm) →
  (∀ accounts,
     let s' := step (Settle id (Accounts accounts)) s in
     wagmiProvider s' = Some (Web3Provider mm)
     ∧ effects s' = effects s ++ [Wallet (next_promise s) (listAccounts (Web3Provider mm))]
     ∧ pending s' !! next_promise s = Some (signIn_accounts (Web3Provider mm)))
  ∧ (∀ reason,
     let s' := step (Settle id (Rejected reason)) s in
     wagmiProvider s' = wagmiProvider s
     ∧ screen s' = screen s
     ∧ effects s' = effects s ++ [Uncaught (Rejection reason)]
     ∧ pending s' = delete id (pending s)).
Proof.
  intros Hp. split.
  - intros accounts s'. subst s'. rewrite (settle_pending _ _ _ _ Hp).
    cbn. split_and!; try done. apply lookup_insert_eq.
  - intros reason s'. subst s'. by rewrite (settle_pending _ _ _ _ Hp).
Qed.

(** ** The close button *)

(** Property X17.  On every reachable page a click on the close button
    does nothing in the Disconnected state and runs [signOut] once in the
    Connected state. *)
Theorem close_button (s : State) :
  reachable s →
  (Disconnected s = true → step (Click closeButton) s = s)
  ∧ (Connected s = true → bound s = true ∧ step (Click closeButton) s = run signOut s).
Proof.
  intros Hr. apply reachable_wired in Hr. split.
  - unfold Disconnected. intros [_ Hoff%negb_true_iff]%andb_prop.
    apply dispatch_nil. destruct (bound s) eqn:Hb.
    + rewrite (wired_bound s closeButton Hr Hb). cbn [wiring]. by rewrite Hoff.
    + by apply wired_unbound.
  - unfold Connected. intros [_ Hon]%andb_prop.
    destruct (bound s) eqn:Hb.
    + split; [done|]. apply (dispatch_one closeButton "click" L_signOut).
      rewrite (wired_bound s closeButton Hr Hb). cbn [wiring]. by rewrite Hon.
    + unfold listens in Hon. by rewrite (wired_unbound s closeButton Hr Hb) in Hon.
Qed.

Lemma close_button_witness : step (Click closeButton) anonymous = anonymous.
Proof.
  refine (proj1 (close_button anonymous _) eq_refl).
  unfold anonymous. apply reachable_steps. by constructor.
Defined.

(** ** Failures of the asynchronous calls *)

Lemma connect_answer_witness :
  wagmiProvider (step (Settle 1 (Accounts ["0xABC"])) requesting_accounts)
  = Some (Web3Provider (JS.Object 1)).
Proof.
  apply (proj1 (connect_answer requesting_accounts 1 (JS.Object 1) eq_refl) ["0xABC"]).
Defined.

(** Property X11.  The ENS lookup is the only asynchronous call whose
    failure is caught: it is logged on the console and the sign-in goes on
    to the nonce request with an empty name.  The rejection of any other
    promise (account request, accounts, nonce, network, signature, any of
    the four requests) ends its flow as an unhandled rejection and leaves
    the screen and the provider as they were. *)
Theorem rejection_is_caught_only_for_ens (s : State) (id : nat) (k : Cont) (reason : string) :
  pending s !! id = Some k →
  let s' := step (Settle id (Rejected reason)) s in
  match k with
  | signIn_lookup p account =>
      effects s' = effects s ++ [ConsoleError reason; Fetch (next_promise s) nonce_request]
      ∧ pending s' !! next_promise s = Some (signIn_nonce p account EmptyString)
      ∧ title_text s' = (λ _, EmptyString) <$> title s
  | _ =>
      effects s' = effects s ++ [Uncaught (Rejection reason)]
      ∧ pending s' = delete id (pending s)
      ∧ screen s' = screen s
      ∧ wagmiProvider s' = wagmiProvider s
  end.
Proof.
  intros Hp s'. subst s'. rewrite (settle_pending _ _ _ _ Hp).
  destruct k; try done.
  rewrite lookup_failed. cbn. rewrite <- app_assoc.
  split_and!; [done|apply lookup_insert_eq|].
  unfold title_text. by destruct (title s).
Qed.

Lemma rejection_is_caught_only_for_ens_witness :
  effects (step (Settle 1 (Rejected "Failed to fetch")) saving)
  = effects saving ++ [Uncaught (Rejection "Failed to fetch")].
Proof.
  apply (rejection_is_caught_only_for_ens saving 1 save_then "Failed to fetch" eq_refl).
Defined.

(** Property X10.  A sign-in on a provider that lists no account, or an
    empty first account, stops with the error Address not found: no request
    is sent, the flow is over and the screen is unchanged. *)
Theorem signIn_without_account (s : State) (id : nat) (p : Provider) (accounts : list string) :
  pending s !! id = Some (signIn_accounts p) →
  head accounts = None ∨ head accounts = Some EmptyString →
  let s' := step (Settle id (Accounts accounts)) s in
  effects s' = effects s ++ [Uncaught AddressNotFound]
  ∧ pending s' = delete id (pending s)
  ∧ screen s' = screen s.
Proof.
  intros Hp Hacc s'. subst s'. rewrite (settle_pending _ _ _ _ Hp).
  cbn [resume]. unfold signIn_address.
  destruct accounts as [|a l]; [done|].
  destruct Hacc as [?|[= ->]]; [done|]. done.
Qed.

Lemma signIn_without_account_witness :
  effects (step (Settle 1 (Accounts [])) listing_accounts)
  = effects listing_accounts ++ [Uncaught AddressNotFound].
Proof.
  apply (signIn_without_account listing_accounts 1 (SignerProvider 7) [] eq_refl).
  by left.
Defined.

(** Property X12.  When /api/sign_in answers with a status other than 200
    the screen and the provider stay as they were and the flow is over; the
    body is logged on the console when it is JSON, and the failure to parse
    it is an unhandled rejection otherwise. *)
Theorem verification_refused (s : State) (id : nat) (res : Response) :
  pending s !! id = Some signIn_verify →
  status res ≠ 200%Z →
  let s' := step (Settle id (Http res)) s in
  screen s' = screen s
  ∧ pending s' = delete id (pending s)
  ∧ wagmiProvider s' = wagmiProvider s
  ∧ effects s' =
      effects s ++ [match body_json res with
                    | Some _ => ConsoleError (body_text res)
                    | None => Uncaught (Rejection "res.json()")
                    end].
Proof.
  intros Hp Hs s'. subst s'. rewrite (settle_pending _ _ _ _ Hp).
  cbn [resume]. unfold signIn_response.
  rewrite (proj2 (Z.eqb_neq _ _)) by done.
  by destruct (body_json res).
Qed.

Lemma verification_refused_witness :
  screen (step (Settle 6 (Http (error_response 422))) verifying) = screen verifying.
Proof.
  apply (verification_refused verifying 6 (error_response 422) eq_refl). discriminate.
Defined.

(** ** Sessions *)

Lemma normalize_newlines_id l :
  Forall (λ c, c ≠ 13%Z) l → JS.normalize_newlines l = l.
Proof.
  induction 1 as [|c r Hc _ IH]; [done|]. cbn.
  rewrite (proj2 (Z.eqb_neq c 13)) by done. by rewrite IH.
Qed.

Lemma normalize_newlines_bounded n l :
  length l ≤ n → Forall (λ c, c ≠ 13%Z) (JS.normalize_newlines l).
Proof.
  revert l. induction n as [|n IH]; intros [|c r] Hl; cbn in *; try done; [lia|].
  destruct (Z.eqb_spec c 13) as [->|Hc].
  - constructor; [done|]. destruct r as [|d r']; [done|].
    destruct (d =? 10)%Z; apply IH; cbn in *; lia.
  - constructor; [done|]. apply IH. lia.
Qed.

(** Property X13.  A 200 answer of /api/me or /api/sign_in with a session,
    on the loaded page: the interface is Connected and clean with the save
    affordance disabled, the title is [ens ?? address], and the notepad
    keeps what it held when the stored text is empty and otherwise gives
    back the stored text with its newlines normalised: every CR LF pair and
    every other CR read as LF, so that no CR is left, and a stored text
    without CR read as it is. *)
Theorem session_applied (s : State) (id : nat) (k : Cont) (res : Response) (d : Session) :
  bound s = true →
  pending s !! id = Some k →
  k = me_then ∨ k = signIn_verify →
  status res = 200%Z →
  body_json res = Some d →
  let s' := step (Settle id (Http res)) s in
  Connected s' = true ∧ clean s' = true ∧ save_enabled s' = false
  ∧ title_text s' = (λ _, JS.nullish (r_ens d) (r_address d)) <$> title s
  ∧ value (document s' notepad)
    = (if JS.truthy (r_text d) then JS.normalize_newlines (r_text d)
       else value (document s notepad))
  ∧ (JS.truthy (r_text d) = true →
     Forall (λ c, c ≠ 13%Z) (value (document s' notepad))
     ∧ (Forall (λ c, c ≠ 13%Z) (r_text d) → value (document s' notepad) = r_text d))
  ∧ effects s' = effects s.
Proof.
  intros Hb Hp Hk Hs Hj s'.
  assert (Hrun : s' = run (connectedState (r_text d) (r_address d) (r_ens d))
                        (set_pending (delete id) s)).
  { subst s'. rewrite (settle_pending _ _ _ _ Hp).
    destruct Hk as [-> | ->]; cbn [resume]; unfold me_response, signIn_response;
      by rewrite Hs, Hj. }
  rewrite Hrun.
  destruct (connectedState_Connected (r_text d) (r_address d) (r_ens d)
              (set_pending (delete id) s) Hb) as (H1 & H2 & H3 & H4).
  assert (Hval : value (document (run (connectedState (r_text d) (r_address d) (r_ens d))
                                   (set_pending (delete id) s)) notepad)
                 = (if JS.truthy (r_text d) then JS.normalize_newlines (r_text d)
                    else value (document s notepad))).
  { unfold run. rewrite connectedState_run by done. cbn.
    destruct (JS.truthy (r_text d)); cbn; by at_handle. }
  split_and!; try done.
  - intros Ht. rewrite Hval, Ht. split.
    + by eapply normalize_newlines_bounded.
    + apply normalize_newlines_id.
  - unfold run. by rewrite connectedState_run.
Qed.

Lemma session_applied_witness :
  Connected (step (Settle 6 (Http (ok_response (Some example_session)))) verifying) = true.
Proof.
  apply (session_applied verifying 6 signIn_verify (ok_response (Some example_session))
           example_session); try reflexivity.
  by right.
Defined.

(** Property X14.  Loading any page, with or without injected provider:
    when /api/me answers with a status other than 200 the interface is
    Disconnected, with the metamask button shown; one request has been
    sent, nothing is pending, and the title and the notepad are those of
    the markup. *)
Theorem no_session_on_load (mm : JS.value) (host origin : string)
    (siwe : SiweMessage → option SiweMessage) (page : Handle → Element)
    (ttl : option Element) (res : Response) :
  status res ≠ 200%Z →
  let s := steps [DOMContentLoaded; Settle 0 (Http res)] (loaded mm host origin siwe page ttl) in
  Disconnected s = true
  ∧ effects s = [Fetch 0 me_request]
  ∧ pending s = ∅
  ∧ title s = ttl
  ∧ value (document s notepad) = value (page notepad)
  ∧ onbeforeunload s = None.
Proof.
  intros Hs s. subst s. unfold steps. cbn [foldl].
  change (step DOMContentLoaded (loaded mm host origin siwe page ttl))
    with (run onDOMContentLoaded (loaded mm host origin siwe page ttl)).
  rewrite run_onDOMContentLoaded.
  rewrite (settle_pending 0 me_then); [|cbn; apply lookup_insert_eq].
  cbn [resume]. unfold me_response. rewrite (proj2 (Z.eqb_neq _ _)) by done.
  split_and!.
  - by apply disconnectedState_Disconnected.
  - unfold run. by rewrite disconnectedState_run.
  - unfold run. rewrite disconnectedState_run by done. cbn. apply delete_insert_id.
    apply lookup_empty.
  - unfold run. by rewrite disconnectedState_run.
  - unfold run. rewrite disconnectedState_run by done. cbn. by at_handle.
  - unfold run. by rewrite disconnectedState_run.
Qed.

Lemma no_session_on_load_witness : Disconnected anonymous = true.
Proof.
  apply (no_session_on_load JS.Undefined "example.org" "https://example.org" example_siwe
           blank_page (Some blank) (error_response 401)).
  discriminate.
Defined.

(** ** The requests *)

Ltac known :=
  first
    [ solve [ intros; assumption ]
    | let s := fresh "s" in
      let H := fresh "H" in
      intros s H; unfold requests_known, suspended in *;
      cbn [effects log set_next_promise set_pending];
      rewrite fetches_app; apply Forall_app; split; [exact H|];
      cbn; repeat constructor ].

Lemma known_invoke f e : maintains requests_known (invoke f e).
Proof.
  destruct f; cbn [invoke];
    unfold maximize, restore, signOut, connect, save, enableSave, updateTitle,
      updateNotepad, updateUnsavedChanges, fetch, wallet, suspend, effect;
    cbn [from_option]; maintain known; repeat case_match; maintain known.
Qed.

Lemma known_resume k r : maintains requests_known (resume k r).
Proof.
  destruct k, r; cbn [resume];
    unfold signIn_address, signIn_message, signIn_sign, signIn_response, me_response,
      signIn_title, signIn, connectedState, disconnectedState, blockSave, metamask_undefined,
      updateTitle, updateNotepad, updateUnsavedChanges, wallet, fetch, suspend, effect;
    repeat case_match; maintain known; repeat case_match; maintain known.
Qed.

Lemma known_onSigner signer : maintains requests_known (onSigner signer).
Proof.
  unfold onSigner, signIn, wallet, suspend, effect. maintain known. case_match; maintain known.
Qed.

Lemma known_step ev s : requests_known s → requests_known (step ev s).
Proof.
  apply step_maintains.
  - intros e s' H. unfold requests_known in *. cbn. by rewrite fetches_app, app_nil_r.
  - by intros v s' H.
  - by intros id s' H.
  - apply known_invoke.
  - apply known_resume.
  - apply known_onSigner.
  - intros s' _ H. rewrite run_onDOMContentLoaded. unfold requests_known in *. cbn.
    rewrite fetches_app. apply Forall_app. split; [done|]. by repeat constructor.
Qed.

(** Property X15.  Every request the program ever sends carries
    [credentials: include] and is one of the five of the backend contract:
    GET /api/me, GET /api/nonce, POST /api/sign_in, POST /api/sign_out,
    PUT /api/save. *)
Theorem requests_carry_credentials (s : State) (r : Request) :
  reachable s →
  r ∈ fetches (effects s) →
  credentials r = "include"
  ∧ (method r, url r) ∈
      [("GET", "/api/me"); ("GET", "/api/nonce"); ("POST", "/api/sign_in");
       ("POST", "/api/sign_out"); ("PUT", "/api/save")].
Proof.
  intros Hr Hin.
  assert (Hk : requests_known s).
  { clear Hin. induction Hr as [|ev s _ IH]; [by constructor|by apply known_step]. }
  unfold requests_known in Hk. rewrite Forall_forall in Hk. specialize (Hk r Hin).
  unfold known_request in Hk. apply andb_prop in Hk as [H1 H2].
  by apply bool_decide_eq_true_1 in H1, H2.
Qed.

Lemma requests_carry_credentials_witness :
  credentials me_request = "include"
  ∧ (method me_request, url me_request) ∈
      [("GET", "/api/me"); ("GET", "/api/nonce"); ("POST", "/api/sign_in");
       ("POST", "/api/sign_out"); ("PUT", "/api/save")].
Proof.
  apply (requests_carry_credentials (step DOMContentLoaded fresh) me_request).
  - apply reachable_step. by constructor.
  - change (me_request ∈ [me_request]). by left.
Defined.

(** ** The challenge under interleaving: an instance *)

Lemma quiet_nil id : quiet id [].
Proof. intros r Hr. inversion Hr. Qed.

Lemma signIn_challenge_interleaved_witness :
  let s := anonymous in
  let s1 := steps [Input (JS.units "x")] (run (signIn (SignerProvider 7)) s) in
  let s2 := steps [] (step (Settle (next_promise s) (Accounts [example_account])) s1) in
  let s3 := steps [Click toggleSize] (step (Settle (next_promise s1) (EnsName None)) s2) in
  let s4 :=
    steps [] (step (Settle (next_promise s2) (Http (mkResponse 200 example_nonce None))) s3) in
  effects (step (Settle (next_promise s3) (Network 1)) s4) =
    effects s4 ++
      [Wallet (next_promise s4)
         (signMessage (SignerProvider 7)
            (prepareMessage
               (mkSiweMessage (location_host s) example_account 1 (location_origin s)
                              "1" "SIWE Notepad Example" example_nonce)))].
Proof.
  refine (proj2 (proj2 (proj2 (proj2
    (signIn_challenge_interleaved anonymous (SignerProvider 7) example_account []
       (EnsName None) (mkResponse 200 example_nonce None) 1
       [Input (JS.units "x")] [] [Click toggleSize] [] _ _ _ _ _ _ _))))).
  - apply reachable_issued. unfold anonymous. apply reachable_steps. by constructor.
  - discriminate.
  - left. by eexists.
  - intros r Hr. inversion Hr as [|? ? ? Hr']; inversion Hr'.
  - apply quiet_nil.
  - intros r Hr. inversion Hr as [|? ? ? Hr']; inversion Hr'.
  - apply quiet_nil.
Defined.

(** Property X18.  [signOut] and [disconnectedState] do not touch the
    dirty state: after an answered sign-out the interface is Disconnected
    and the notepad empty, but the unsaved-changes indicator, the unload
    guard and the save affordance are as they were before. *)
Theorem signOut_keeps_dirty (s : State) (res : Response) :
  bound s = true →
  let out := step (Settle (next_promise s) (Http res)) (run signOut s) in
  Disconnected out = true
  ∧ value (document out notepad) = []
  ∧ dirty out = dirty s
  ∧ save_enabled out = save_enabled s
  ∧ onbeforeunload out = onbeforeunload s.
Proof.
  intros Hb out. subst out. rewrite signed_out_state by done.
  unfold Disconnected, dirty, save_enabled, hidden, disabled, listens.
  cbn. at_handle. cbn. by autorewrite with dom.
Qed.

Lemma signOut_keeps_dirty_witness :
  dirty (step (Settle (next_promise (typed (JS.units "a"))) (Http (ok_response None)))
           (run signOut (typed (JS.units "a"))))
  = dirty (typed (JS.units "a")).
Proof.
  apply (signOut_keeps_dirty (typed (JS.units "a")) (ok_response None) eq_refl).
Defined.

(** Property X19.  From the answer of the ENS lookup to the verification
    request, without other events, when the siwe library builds a message
    from the fields it is given (the host and origin of the document, the
    account of the attempt, the chain id the provider answers and the body
    of the nonce response, whatever its status): the nonce is requested,
    then the network, then the signature over the text the message
    prepares, and the body posted to /api/sign_in holds that message, the
    name the lookup returned (the empty string when it returned none) and
    the signature. *)
Theorem looked_up_name_is_posted (s : State) (n : nat) (p : Provider) (account : string)
    (name : option string) (res : Response) (chain : Z) (sig : string)
    (message : SiweMessage) :
  pending s !! n = Some (signIn_lookup p account) →
  let m := next_promise s in
  let fields :=
    mkSiweMessage (location_host s) account chain (location_origin s)
                  "1" "SIWE Notepad Example" (body_text res) in
  let posted :=
    steps [Settle n (EnsName name); Settle m (Http res); Settle (1 + m) (Network chain);
           Settle (2 + m) (Signature sig)] s in
  new_SiweMessage s fields = Some message →
  effects posted =
    effects s ++
      [Fetch m nonce_request;
       Wallet (1 + m) (getNetwork p);
       Wallet (2 + m) (signMessage p (prepareMessage message));
       Fetch (3 + m) (sign_in_request message (JS.nullish name EmptyString) sig)]
  ∧ pending posted !! (3 + m) = Some signIn_verify.
Proof.
  intros Hp m fields posted Hv. subst m posted. unfold steps. cbn [foldl].
  rewrite (settle_pending _ _ _ _ Hp), lookup_named.
  rewrite settle_suspended, nonce_resumed by reflexivity.
  rewrite settle_suspended, network_resumed by reflexivity.
  cbn [new_SiweMessage location_origin location_host set_pending set_next_promise
       set_title log suspended].
  fold fields. rewrite Hv.
  rewrite settle_suspended, signature_resumed by reflexivity.
  cbn. rewrite <- !app_assoc. split; [done|]. apply lookup_insert_eq.
Qed.

Lemma looked_up_name_is_posted_witness :
  pending
    (steps [Settle 2 (EnsName (Some "alice.eth"));
            Settle (next_promise looking_up) (Http (mkResponse 200 example_nonce None));
            Settle (1 + next_promise looking_up) (Network 1);
            Settle (2 + next_promise looking_up) (Signature "0xsig")] looking_up)
    !! (3 + next_promise looking_up) = Some signIn_verify.
Proof.
  apply (proj2 (looked_up_name_is_posted looking_up 2 (SignerProvider 7) example_account
                  (Some "alice.eth") (mkResponse 200 example_nonce None) 1 "0xsig"
                  (mkSiweMessage "example.org" example_account 1 "https://example.org"
                                 "1" "SIWE Notepad Example" example_nonce)
                  eq_refl eq_refl)).
Defined.

Lemma signer_run p s :
  run (onSigner (Some (mkSigner (Some p)))) s =
    suspended (λ id, Wallet id (listAccounts p)) (signIn_accounts p)
      (set_wagmiProvider (Some p) (log (ConsoleLog (Some (mkSigner (Some p)))) s)).
Proof. done. Qed.

(** Property X20.  The signer observer does not look at the session or at
    attempts in progress: two reports in a row, in any state, leave two
    sign-in attempts pending, one per provider, and the provider variable
    holds the last one; nothing has been signed and the screen is as it
    was. *)
Theorem signer_changes_overlap (s : State) (p1 p2 : Provider) :
  let s2 :=
    steps [SignerChanged (Some (mkSigner (Some p1)));
           SignerChanged (Some (mkSigner (Some p2)))] s in
  wagmiProvider s2 = Some p2
  ∧ pending s2 !! next_promise s = Some (signIn_accounts p1)
  ∧ pending s2 !! S (next_promise s) = Some (signIn_accounts p2)
  ∧ signing (effects s2) = signing (effects s)
  ∧ screen s2 = screen s.
Proof.
  unfold steps. cbn [foldl step]. rewrite !signer_run. cbn. split_and!; try done.
  - rewrite lookup_insert_ne by lia. apply lookup_insert_eq.
  - apply lookup_insert_eq.
  - by rewrite !signing_app, !app_nil_r.
Qed.

(** ** The unload guard *)

Lemma guarded_blockSave : maintains guarded blockSave.
Proof.
  intros s H. destruct (bound s) eqn:Hb.
  - rewrite blockSave_run by done. by left.
  - unfold blockSave. by rewrite unbound_throws.
Qed.

Lemma guarded_enableSave : maintains guarded enableSave.
Proof.
  intros s H. destruct (bound s) eqn:Hb.
  - rewrite enableSave_run by done. right.
    unfold listens, disabled. cbn. at_handle. cbn. by autorewrite with dom.
  - unfold enableSave. by rewrite unbound_throws.
Qed.

Lemma guarded_connectedState text address ens :
  maintains guarded (connectedState text address ens).
Proof.
  intros s H. destruct (bound s) eqn:Hb.
  - rewrite connectedState_run by done. by left.
  - unfold connectedState. by rewrite unbound_throws.
Qed.

Ltac guard_side :=
  first
    [ solve [ intros; assumption ]
    | let s := fresh "s" in
      let Hb := fresh "Hb" in
      intros s Hb [?|(?&?&?&?&?)]; [by left|right];
      unfold listens, disabled in *; cbn; at_handle; cbn; done ].

Ltac keep_guard :=
  repeat first
    [ apply guarded_blockSave
    | apply guarded_enableSave
    | apply guarded_connectedState
    | apply maintains_when
    | apply maintains_update; guard_side
    | apply maintains_element
    | apply maintains_ret
    | apply maintains_throw
    | apply maintains_gets
    | apply maintains_modify; guard_side
    | apply maintains_bind; [|intros ?] ].

Lemma guarded_invoke f e : maintains guarded (invoke f e).
Proof.
  destruct f; cbn [invoke].
  - unfold maximize. keep_guard.
  - unfold restore. keep_guard.
  - unfold signOut, updateTitle, updateNotepad, fetch, suspend. keep_guard.
  - unfold connect, wallet, suspend, effect. keep_guard. case_match; keep_guard.
  - unfold save, fetch, suspend, effect. cbn [from_option]. keep_guard. case_match; keep_guard.
  - keep_guard.
Qed.

Lemma guarded_resume k r : maintains guarded (resume k r).
Proof.
  destruct k, r; cbn [resume];
    unfold signIn_address, signIn_message, signIn_sign, signIn_response, me_response,
      signIn_title, signIn, disconnectedState, metamask_undefined,
      updateTitle, wallet, fetch, suspend, effect;
    repeat case_match; keep_guard; repeat case_match; keep_guard.
Qed.

Lemma guarded_onSigner signer : maintains guarded (onSigner signer).
Proof. unfold onSigner, signIn, wallet, suspend, effect. keep_guard. case_match; keep_guard. Qed.

Lemma guarded_step ev s : guarded s → guarded (step ev s).
Proof.
  apply step_maintains.
  - by intros e s' H.
  - intros v s' [?|(?&?&?&?&?)]; [by left|right].
    unfold listens, disabled in *. cbn. by at_handle.
  - by intros id s' H.
  - apply guarded_invoke.
  - apply guarded_resume.
  - apply guarded_onSigner.
  - intros s' Hb [H|(_&?&_)]; [|congruence]. rewrite run_onDOMContentLoaded. by left.
Qed.

(** Property X21.  In every reachable state, when the unload guard is in
    place it is the one of [enableSave], the page is loaded, the indicator
    shows the unsaved changes and the save affordance is enabled. *)
Theorem unload_guard_means_dirty (s : State) :
  reachable s →
  onbeforeunload s ≠ None →
  onbeforeunload s = Some unload_warning
  ∧ bound s = true ∧ dirty s = true ∧ save_enabled s = true.
Proof.
  intros Hr Hg.
  assert (H : guarded s).
  { clear Hg. induction Hr as [|ev s _ IH]; [by left|by apply guarded_step]. }
  destruct H as [?|(H1&H2&H3&H4&H5)]; [done|].
  unfold dirty, save_enabled. rewrite H1, H3, H4, H5. done.
Qed.

Lemma reachable_typed D : reachable (typed D).
Proof.
  unfold typed, signed_in. apply reachable_step, reachable_steps. by constructor.
Qed.

Lemma unload_guard_means_dirty_witness : dirty (typed (JS.units "a")) = true.
Proof.
  apply (unload_guard_means_dirty (typed (JS.units "a")) (reachable_typed _)).
  discriminate.
Defined.
